(** * whitenoise: static-file resolution, header computation and
      conditional-request evaluation

    A shallow embedding of [whitenoise/base.py] (classes [WhiteNoise] and
    [HashedEtagWhiteNoise]) together with the parts of the Python standard
    library it leans on ([str] methods, [posixpath], [wsgiref.headers]).

    Conventions.
    - A Python [str] is a [string]; its characters are the code points
      0..255, which is what a WSGI server hands over for header values and
      for [PATH_INFO].
    - A Python computation that may raise is a [result]; [Raise e] is an
      exception of class [e] travelling up the stack.
    - A mutable object handed to a method (the [Headers] instance, the
      [WhiteNoise] instance) is threaded through explicitly.
    - What lives outside [base.py] (the filesystem, [hashlib], [email.utils],
      the sibling modules [utils], [media_types] and [static_file]) is
      gathered in the class [Platform]. *)

From Stdlib Require Import ZArith Ascii String List Bool Lia.
From Stdlib Require Import Numbers.DecimalString.
From Stdlib Require Init.Byte.
From stdpp Require Import base option list gmap strings fin_maps.

Local Open Scope Z_scope.
Local Open Scope string_scope.

(* ===================================================================== *)
(** ** Exceptions and fallible computations *)
(* ===================================================================== *)

(** The exception classes that can reach the code under study.
    [MissingFileError] stands for the class of that name in [utils] and for
    its subclasses, all of which [except MissingFileError] catches. *)
Inductive exn : Type :=
  | MissingFileError
  | OSError
  | PermissionError
  | KeyError
  | TypeError
  | AttributeError
  | AssertionError.

#[global] Instance exn_eq_dec : EqDecision exn.
Proof. solve_decision. Defined.

(** [isinstance(e, MissingFileError)]. *)
Definition is_MissingFileError (e : exn) : bool :=
  match e with MissingFileError => true | _ => false end.

Inductive result (A : Type) : Type :=
  | Ok (a : A)
  | Raise (e : exn).
Arguments Ok {A} a.
Arguments Raise {A} e.

(** [result] is a monad; stdpp's notation [x ← m; k] runs [m] and hands its
    value to [k], and an exception raised by [m] skips [k]. *)
#[global] Instance result_ret : MRet result := fun _ a => Ok a.
#[global] Instance result_bind : MBind result := fun _ _ k m =>
  match m with
  | Ok a => k a
  | Raise e => Raise e
  end.

(* ===================================================================== *)
(** ** The [str] methods used by [base.py] *)
(* ===================================================================== *)

Module Str.

Definition eqb (a b : string) : bool := String.eqb a b.

(** [s.startswith(p)] *)
Fixpoint startswith (s p : string) {struct p} : bool :=
  match p, s with
  | EmptyString, _ => true
  | String _ _, EmptyString => false
  | String b p', String a s' => Ascii.eqb a b && startswith s' p'
  end.

(** [s[n:]] for [n >= 0] *)
Fixpoint drop (n : nat) (s : string) : string :=
  match n, s with
  | O, _ => s
  | S _, EmptyString => EmptyString
  | S n', String _ r => drop n' r
  end.

(** [s[-1]] when [s] is not empty *)
Fixpoint last (s : string) : option ascii :=
  match s with
  | EmptyString => None
  | String a EmptyString => Some a
  | String _ r => last r
  end.

(** [s.split(sep)] for a separator of one character: every occurrence of
    the separator cuts, so the result always has at least one element. *)
Fixpoint split (sep : ascii) (s : string) : list string :=
  match s with
  | EmptyString => [EmptyString]
  | String a r =>
      if Ascii.eqb a sep then EmptyString :: split sep r
      else match split sep r with
           | h :: t => String a h :: t
           | [] => [String a EmptyString]
           end
  end.

(** [sep.join(parts)] *)
Fixpoint join (sep : string) (parts : list string) : string :=
  match parts with
  | [] => EmptyString
  | [p] => p
  | p :: rest => p +:+ sep +:+ join sep rest
  end.

(** [s * n] *)
Fixpoint repeat (s : string) (n : nat) : string :=
  match n with
  | O => EmptyString
  | S n' => s +:+ repeat s n'
  end.

(** [c.isspace()] on the code points below 256: TAB, LF, VT, FF, CR, the
    four information separators, SPACE, NEL and NBSP. *)
Definition isspace (c : ascii) : bool :=
  let n := N_of_ascii c in
  ((9 <=? n) && (n <=? 13) || (28 <=? n) && (n <=? 32)
   || (n =? 133) || (n =? 160))%N.

Fixpoint lstrip (s : string) : string :=
  match s with
  | EmptyString => EmptyString
  | String a r => if isspace a then lstrip r else s
  end.

Fixpoint rstrip (s : string) : string :=
  match s with
  | EmptyString => EmptyString
  | String a r =>
      match rstrip r with
      | EmptyString => if isspace a then EmptyString else String a EmptyString
      | r' => String a r'
      end
  end.

(** [s.strip()] *)
Definition strip (s : string) : string := rstrip (lstrip s).

(** [c.lower()] on the code points below 256: A-Z and the capital letters
    of the Latin-1 supplement (all of 0xC0-0xDE but the multiplication
    sign). *)
Definition lower_char (c : ascii) : ascii :=
  let n := N_of_ascii c in
  if ((65 <=? n) && (n <=? 90)
      || (192 <=? n) && (n <=? 222) && negb (n =? 215))%N
  then ascii_of_N (n + 32) else c.

(** [s.lower()] *)
Fixpoint lower (s : string) : string :=
  match s with
  | EmptyString => EmptyString
  | String a r => String (lower_char a) (lower r)
  end.

(** [s.replace(old, new)] for [old] of one character *)
Fixpoint replace (old : ascii) (new : string) (s : string) : string :=
  match s with
  | EmptyString => EmptyString
  | String a r =>
      if Ascii.eqb a old then new +:+ replace old new r
      else String a (replace old new r)
  end.

(** [str(n)] and ['{0}'.format(n)] for an [int] *)
Definition of_Z (n : Z) : string := NilZero.string_of_int (Z.to_int n).

(** [bool(s)] for a value that is a [str] or [None] *)
Definition truthy (s : option string) : bool :=
  match s with
  | None => false
  | Some EmptyString => false
  | Some _ => true
  end.

(** [fmt.format(arg)] with one positional argument: every replacement
    field [{}], [{0}] or [{:s}] is replaced by [arg]; the literal text is
    copied.  [field] holds the characters read since the opening brace. *)
Fixpoint format_aux (arg : string) (field : option string) (fmt : string)
  : string :=
  match fmt with
  | EmptyString => EmptyString
  | String a r =>
      match field with
      | None =>
          if Ascii.eqb a "{" then format_aux arg (Some EmptyString) r
          else String a (format_aux arg None r)
      | Some f =>
          if Ascii.eqb a "}" then arg +:+ format_aux arg None r
          else format_aux arg (Some (f +:+ String a EmptyString)) r
      end
  end.

Definition format (fmt arg : string) : string := format_aux arg None fmt.

(** [c in s] for a character [c] *)
Fixpoint contains (c : ascii) (s : string) : bool :=
  match s with
  | EmptyString => false
  | String a r => Ascii.eqb a c || contains c r
  end.

(** The names [dir(str)] lists besides the double-underscore ones. *)
Definition method_names : list string :=
  [ "capitalize"; "casefold"; "center"; "count"; "encode"; "endswith";
    "expandtabs"; "find"; "format"; "format_map"; "index"; "isalnum";
    "isalpha"; "isascii"; "isdecimal"; "isdigit"; "isidentifier";
    "islower"; "isnumeric"; "isprintable"; "isspace"; "istitle";
    "isupper"; "join"; "ljust"; "lower"; "lstrip"; "maketrans";
    "partition"; "removeprefix"; "removesuffix"; "replace"; "rfind";
    "rindex"; "rjust"; "rpartition"; "rsplit"; "rstrip"; "split";
    "splitlines"; "startswith"; "strip"; "swapcase"; "title";
    "translate"; "upper"; "zfill" ].

(** [getattr(self, name)] followed by a call with one [str] argument.
    The lookup raises [AttributeError] for a name [str] does not have.
    Of the methods that exist only [format] is given a meaning here; a
    call of another one with this single argument is a [TypeError] in this
    model, and no code below reaches it. *)
Definition call_method (self name arg : string) : result string :=
  if existsb (eqb name) method_names then
    if eqb name "format" then Ok (format self arg) else Raise TypeError
  else Raise AttributeError.

End Str.

(** The double quote, written by its code so that no literal needs it. *)
Definition DQUOTE : ascii := "034"%char.
Definition quoted (s : string) : string :=
  String DQUOTE (s +:+ String DQUOTE EmptyString).

(* ===================================================================== *)
(** ** [posixpath]: [normpath] and [join] *)
(* ===================================================================== *)

Module Posixpath.

Definition is_nil {A : Type} (l : list A) : bool :=
  match l with [] => true | _ => false end.

(** One turn of the loop over the components in [normpath].
    [new_comps] grows at its end, as the Python list does. *)
Definition normpath_step (initial_slashes : nat) (new_comps : list string)
    (comp : string) : list string :=
  if Str.eqb comp "" || Str.eqb comp "." then new_comps
  else if negb (Str.eqb comp "..")
          || (Nat.eqb initial_slashes 0 && is_nil new_comps)
          || (negb (is_nil new_comps)
              && Str.eqb (List.last new_comps "") "..")
  then (new_comps ++ [comp])%list
  else if negb (is_nil new_comps) then removelast new_comps
  else new_comps.

(** [posixpath.normpath(path)] for a [str] argument. *)
Definition normpath (path : string) : string :=
  if Str.eqb path "" then "."
  else
    let initial_slashes : nat :=
      if Str.startswith path "/" then
        if Str.startswith path "//" && negb (Str.startswith path "///")
        then 2%nat else 1%nat
      else 0%nat in
    let comps := Str.split "/" path in
    let new_comps := fold_left (normpath_step initial_slashes) comps [] in
    let path := Str.join "/" new_comps in
    let path := Str.repeat "/" initial_slashes +:+ path in
    if Str.eqb path "" then "." else path.

(** A string with a slash in it. *)
Fixpoint has_sep (s : string) : bool :=
  match s with
  | EmptyString => false
  | String a r => Ascii.eqb a "/" || has_sep r
  end.

(** The components [normpath] keeps for an absolute path: none is [..]. *)
Definition kept (c : string) : Prop := c <> ".." /\ has_sep c = false.

Definition endswith_sep (s : string) : bool :=
  match Str.last s with
  | Some c => Ascii.eqb c "/"
  | None => false
  end.

(** [posixpath.join(a, b)] *)
Definition join (a b : string) : string :=
  if Str.startswith b "/" then b
  else if Str.eqb a "" || endswith_sep a then a +:+ b
  else a +:+ "/" +:+ b.

End Posixpath.

(* ===================================================================== *)
(** ** [wsgiref.headers.Headers] *)
(* ===================================================================== *)

(** The header object is its list of (name, value) pairs, in order. *)
Definition Headers : Type := list (string * string).

Module Hdr.

(** [Headers([])] *)
Definition empty : Headers := [].

(** [del headers[name]]: every pair whose name matches, whatever its
    letter case, goes. *)
Definition delitem (h : Headers) (name : string) : Headers :=
  List.filter
    (fun kv => negb (Str.eqb (Str.lower (fst kv)) (Str.lower name))) h.

(** [headers[name] = val] *)
Definition setitem (h : Headers) (name val : string) : Headers :=
  (delitem h name ++ [(name, val)])%list.

(** [headers[name]]: the first value under that name, or [None]. *)
Fixpoint getitem (h : Headers) (name : string) : option string :=
  match h with
  | [] => None
  | (k, v) :: r =>
      if Str.eqb (Str.lower k) (Str.lower name) then Some v
      else getitem r name
  end.

(** [_formatparam(param, value)] with the default [quote=1]. *)
Definition formatparam (param : string) (value : option string) : string :=
  match value with
  | Some (String _ _ as v) =>
      let v := Str.replace "\" "\\" v in
      let v := Str.replace DQUOTE (String "\" (String DQUOTE "")) v in
      param +:+ "=" +:+ quoted v
  | _ => param
  end.

(** [headers.add_header(name, value, **params)] *)
Definition add_header (h : Headers) (name value : string)
    (params : list (string * option string)) : Headers :=
  let parts :=
    value :: map (fun kv => formatparam (Str.replace "_" "-" (fst kv)) (snd kv))
                 params in
  (h ++ [(name, Str.join "; " parts)])%list.

End Hdr.

(* ===================================================================== *)
(** ** Data *)
(* ===================================================================== *)

(** The 9-tuple [email.utils.parsedate] returns, as the list of its items;
    Python compares such tuples item by item. *)
Definition time_tuple : Type := list Z.

(** What [os.stat] tells about a regular file.  [st_mtime] is only ever
    handed to [formatdate]. *)
Record file_stat : Type := {
  st_mtime : Z;
  st_size : Z
}.

(** Modelled from the spec: [static_file.StaticFile], which is not among
    the sources.  An entry keeps its path, its final header list and the
    modification time of its stat snapshot, the latter in the form the
    conditional evaluator compares ([None] when it has none). *)
Record StaticFile : Type := {
  sf_path : string;
  sf_headers : Headers;
  last_modified : option time_tuple
}.

(** An entry as the two classes build it: [StaticFile] for [WhiteNoise],
    the nested subclass with its [etag] attribute for
    [HashedEtagWhiteNoise]. *)
Inductive Entry : Type :=
  | PlainFile (sf : StaticFile)
  | HashedFile (sf : StaticFile) (etag : option string).

(** The WSGI environment, which is also the mapping of request headers. *)
Abbreviation Environ := (gmap string string).

(** Modelled from the spec: the response an entry computes (status, headers,
    body), built in [static_file]. *)
Record Response : Type := {
  status : Z;
  phrase : string;
  headers : Headers;
  file : option (list Byte.byte)
}.

(** What a WSGI callable did: the arguments it gave [start_response] and the
    body it returned. *)
Record WsgiResult : Type := {
  status_line : string;
  response_headers : Headers;
  body : list Byte.byte
}.

Inductive Class : Type :=
  | WhiteNoiseClass
  | HashedEtagWhiteNoiseClass.

(** A [WhiteNoise] object: its class, the configuration attributes, the
    methods a subclass or a caller may replace, the wrapped application, and
    the two attributes [add_files] mutates. *)
Record WhiteNoise : Type := {
  cls : Class;
  autorefresh : bool;
  max_age : option Z;
  allow_all_origins : bool;
  charset : option string;
  add_headers_function : option (Headers -> string -> string -> result Headers);
  is_immutable_file : string -> string -> bool;
  add_extra_headers : Headers -> string -> string -> result Headers;
  application : Environ -> result WsgiResult;
  files : gmap string Entry;
  directories : list (string * string)
}.

(** Ten years, [FOREVER = 10*365*24*60*60]. *)
Definition FOREVER : Z := 10 * 365 * 24 * 60 * 60.

(** The bodies the base class gives the two hooks. *)
Definition default_is_immutable_file (path url : string) : bool := false.
Definition default_add_extra_headers (h : Headers) (path url : string)
  : result Headers := Ok h.

Definition set_files (w : WhiteNoise) (f : gmap string Entry) : WhiteNoise :=
  {| cls := cls w; autorefresh := autorefresh w; max_age := max_age w;
     allow_all_origins := allow_all_origins w; charset := charset w;
     add_headers_function := add_headers_function w;
     is_immutable_file := is_immutable_file w;
     add_extra_headers := add_extra_headers w;
     application := application w;
     files := f; directories := directories w |}.

Definition set_directories (w : WhiteNoise) (d : list (string * string))
  : WhiteNoise :=
  {| cls := cls w; autorefresh := autorefresh w; max_age := max_age w;
     allow_all_origins := allow_all_origins w; charset := charset w;
     add_headers_function := add_headers_function w;
     is_immutable_file := is_immutable_file w;
     add_extra_headers := add_extra_headers w;
     application := application w;
     files := files w; directories := d |}.

(** Everything [base.py] calls and does not define. *)
Class Platform : Type := {
  (** [utils.stat_regular_file]: the stat of a regular file, or
      [MissingFileError] *)
  stat_regular_file : string -> result file_stat;
  (** [open(path, 'rb').read()] *)
  read_file : string -> result (list Byte.byte);
  (** [os.walk(root, followlinks=True)]: (directory, subdirectories, files) *)
  walk : string -> list (string * list string * list string);
  (** [os.path.relpath(path, start)] *)
  relpath : string -> string -> string;
  (** [email.utils.formatdate(t, usegmt=True)] *)
  formatdate : Z -> string;
  (** [email.utils.parsedate]: [None] for what is not a date *)
  parsedate : string -> option time_tuple;
  (** [hashlib.md5(data).digest()] *)
  md5 : list Byte.byte -> list Byte.byte;
  (** [base64.b64encode(data).decode()] *)
  b64encode : list Byte.byte -> string;
  (** [MediaTypes.get_type] *)
  get_type : string -> string;
  (** [utils.ensure_leading_trailing_slash] *)
  ensure_leading_trailing_slash : option string -> string;
  (** [utils.decode_path_info] *)
  decode_path_info : string -> string;
  (** [StaticFile.__init__(path, headers)] of [static_file] *)
  StaticFile_init : string -> Headers -> result StaticFile;
  (** [StaticFile.get_response(method, request_headers)] *)
  get_response : Entry -> string -> Environ -> result Response
}.

(* ===================================================================== *)
(** ** class [WhiteNoise] *)
(* ===================================================================== *)

Section Methods.

Context `{P : Platform}.

Definition add_stat_headers (h : Headers) (path url : string)
  : result Headers :=
  file_stat ← stat_regular_file path;
  let h := Hdr.setitem h "Last-Modified" (formatdate (st_mtime file_stat)) in
  Ok (Hdr.setitem h "Content-Length" (Str.of_Z (st_size file_stat))).

Definition get_charset (w : WhiteNoise) (media_type path url : string)
  : option string :=
  if Str.startswith media_type "text/"
     || Str.eqb media_type "application/javascript"
  then charset w else None.

Definition add_mime_headers (w : WhiteNoise) (h : Headers)
    (path url : string) : Headers :=
  let media_type := get_type path in
  let charset := get_charset w media_type path url in
  let params := if Str.truthy charset then [("charset", charset)] else [] in
  Hdr.add_header h "Content-Type" media_type params.

Definition add_cache_headers (w : WhiteNoise) (h : Headers)
    (path url : string) : Headers :=
  if is_immutable_file w path url then
    Hdr.setitem h "Cache-Control"
      (Str.format "max-age={0}, public, immutable" (Str.of_Z FOREVER))
  else
    match max_age w with
    | Some n =>
        Hdr.setitem h "Cache-Control"
          (Str.format "max-age={0}, public" (Str.of_Z n))
    | None => h
    end.

(** The value [add_cache_headers] gives [Cache-Control], if any. *)
Definition cache_control (w : WhiteNoise) (path url : string)
  : option string :=
  if is_immutable_file w path url
  then Some "max-age=315360000, public, immutable"
  else match max_age w with
       | Some n => Some ("max-age=" +:+ Str.of_Z n +:+ ", public")
       | None => None
       end.

Definition add_cors_headers (w : WhiteNoise) (h : Headers)
    (path url : string) : Headers :=
  if allow_all_origins w
  then Hdr.setitem h "Access-Control-Allow-Origin" "*"
  else h.

Definition call_add_headers_function (w : WhiteNoise) (h : Headers)
    (path url : string) : result Headers :=
  match add_headers_function w with
  | Some f => f h path url
  | None => Ok h
  end.

(** [WhiteNoise.get_static_file] *)
Definition WhiteNoise_get_static_file (w : WhiteNoise) (path url : string)
  : result Entry :=
  h ← add_stat_headers Hdr.empty path url;
  let h := add_mime_headers w h path url in
  let h := add_cache_headers w h path url in
  let h := add_cors_headers w h path url in
  h ← add_extra_headers w h path url;
  h ← call_add_headers_function w h path url;
  sf ← StaticFile_init path h;
  Ok (PlainFile sf).

(* =================================================================== *)
(** ** class [HashedEtagWhiteNoise] *)
(* =================================================================== *)

(** [HashedEtagWhiteNoise.StaticFile.__init__] *)
Definition HashedStaticFile_init (path : string) (h : Headers)
  : result Entry :=
  sf ← StaticFile_init path h;
  Ok (HashedFile sf (Hdr.getitem h "etag")).

(** The loop over [client_etags], with the tokens it looked at. *)
Fixpoint compare_etags (etag : option string) (client_etags : list string)
  : list string * bool :=
  match client_etags with
  | [] => ([], false)
  | t :: rest =>
      if decide (Some (Str.strip t) = etag) then ([t], true)
      else let '(seen, r) := compare_etags etag rest in (t :: seen, r)
  end.

(** [_if_none_match_etag], returning besides its result the tokens of the
    header it compared with the entry's etag. *)
Definition if_none_match_etag_seen (etag : option string)
    (inm_header : string) : list string * bool :=
  if negb (Str.truthy etag) || negb (Str.truthy (Some inm_header))
  then ([], false)
  else
    let inm_header :=
      if Str.startswith inm_header "W/" then Str.drop 2 inm_header
      else inm_header in
    let client_etags := Str.split "," inm_header in
    compare_etags etag client_etags.

Definition _if_none_match_etag (etag : option string) (inm_header : string)
  : bool :=
  snd (if_none_match_etag_seen etag inm_header).

(** [a >= b] on tuples of integers *)
Fixpoint tuple_ge (a b : list Z) : bool :=
  match a, b with
  | [], [] => true
  | [], _ :: _ => false
  | _ :: _, [] => true
  | x :: a', y :: b' => if Z.eqb x y then tuple_ge a' b' else Z.ltb y x
  end.

(** [a >= b] where each side is a tuple or [None]: Python 3 orders
    neither [None] with a tuple nor [None] with [None]. *)
Definition py_ge (a b : option time_tuple) : result bool :=
  match a, b with
  | Some a, Some b => Ok (tuple_ge a b)
  | _, _ => Raise TypeError
  end.

(** [HashedEtagWhiteNoise.StaticFile.file_not_modified] *)
Definition file_not_modified (sf : StaticFile) (etag : option string)
    (request_headers : Environ) : result bool :=
  match request_headers !! "HTTP_IF_NONE_MATCH" with
  | Some v => Ok (_if_none_match_etag etag v)
  | None =>
      match request_headers !! "HTTP_IF_MODIFIED_SINCE" with
      | None => Ok false
      | Some last_requested =>
          py_ge (parsedate last_requested) (last_modified sf)
      end
  end.

Definition add_etag_headers (h : Headers) (path url : string)
  : result Headers :=
  data ← read_file path;
  let b64hash := b64encode (md5 data) in
  v ← Str.call_method (quoted "{:s}") "update" b64hash;
  Ok (Hdr.setitem h "etag" v).

(** [HashedEtagWhiteNoise.get_static_file] *)
Definition HashedEtagWhiteNoise_get_static_file (w : WhiteNoise)
    (path url : string) : result Entry :=
  h ← add_stat_headers Hdr.empty path url;
  let h := add_mime_headers w h path url in
  let h := add_cache_headers w h path url in
  let h := add_cors_headers w h path url in
  h ← add_etag_headers h path url;
  h ← add_extra_headers w h path url;
  h ← call_add_headers_function w h path url;
  HashedStaticFile_init path h.

(** [self.get_static_file(path, url)]: the method of the object's class. *)
Definition get_static_file (w : WhiteNoise) (path url : string)
  : result Entry :=
  match cls w with
  | WhiteNoiseClass => WhiteNoise_get_static_file w path url
  | HashedEtagWhiteNoiseClass => HashedEtagWhiteNoise_get_static_file w path url
  end.

(* =================================================================== *)
(** ** Resolution, registration and dispatch *)
(* =================================================================== *)

(** The loop of [find_file] over [self.directories].  The first component
    lists the candidate paths handed to [get_static_file]. *)
Fixpoint find_in (w : WhiteNoise) (url : string)
    (dirs : list (string * string))
  : list string * result (option Entry) :=
  match dirs with
  | [] => ([], Ok None)
  | (root, prefix) :: rest =>
      if Str.startswith url prefix then
        let path := Posixpath.join root (Str.drop (String.length prefix) url) in
        match get_static_file w path url with
        | Ok e => ([path], Ok (Some e))
        | Raise x =>
            if is_MissingFileError x then
              let '(probed, r) := find_in w url rest in (path :: probed, r)
            else ([path], Raise x)
        end
      else find_in w url rest
  end.

(** [find_file] with the paths it probed. *)
Definition find_file_probed (w : WhiteNoise) (url : string)
  : list string * result (option Entry) :=
  if negb (Str.truthy (Some url)) || Posixpath.endswith_sep url
  then ([], Ok None)
  else if negb (Str.eqb (Posixpath.normpath url) url) then ([], Ok None)
  else find_in w url (directories w).

Definition find_file (w : WhiteNoise) (url : string)
  : result (option Entry) :=
  snd (find_file_probed w url).

(** The url [update_files_dictionary] gives a walked file. *)
Definition url_of (root prefix path : string) : string :=
  prefix +:+ Str.replace "\" "/" (relpath path root).

(** The inner loop of [update_files_dictionary]: the files of one
    directory.  An exception leaves the loop with the mapping as it is. *)
Fixpoint update_filenames (w : WhiteNoise) (root prefix directory : string)
    (filenames : list string) : WhiteNoise * result unit :=
  match filenames with
  | [] => (w, Ok tt)
  | filename :: rest =>
      let path := Posixpath.join directory filename in
      let url := url_of root prefix path in
      match get_static_file w path url with
      | Ok e =>
          update_filenames (set_files w (<[url := e]> (files w)))
            root prefix directory rest
      | Raise x => (w, Raise x)
      end
  end.

(** The outer loop, over what [os.walk] yields. *)
Fixpoint update_walked (w : WhiteNoise) (root prefix : string)
    (walked : list (string * list string * list string))
  : WhiteNoise * result unit :=
  match walked with
  | [] => (w, Ok tt)
  | (directory, _, filenames) :: rest =>
      match update_filenames w root prefix directory filenames with
      | (w', Ok _) => update_walked w' root prefix rest
      | (w', Raise x) => (w', Raise x)
      end
  end.

Definition update_files_dictionary (w : WhiteNoise) (root prefix : string)
  : WhiteNoise * result unit :=
  update_walked w root prefix (walk root).

(** The paths [update_files_dictionary] joins from what [os.walk]
    yields, in the order it meets them. *)
Definition walked_paths
    (walked : list (string * list string * list string)) : list string :=
  flat_map (fun '(directory, _, filenames) =>
              map (Posixpath.join directory) filenames) walked.

(** [e] is an entry [get_static_file] builds for [url] from one of
    [paths], the files of the mount ([root], [prefix]). *)
Definition built_by (w : WhiteNoise) (root prefix : string)
    (paths : list string) (url : string) (e : Entry) : Prop :=
  exists path, path ∈ paths /\ url_of root prefix path = url /\
               get_static_file w path url = Ok e.

Definition add_files (w : WhiteNoise) (root : string)
    (prefix : option string) : WhiteNoise * result unit :=
  let prefix := ensure_leading_trailing_slash prefix in
  if autorefresh w then
    (set_directories w ((root, prefix) :: directories w), Ok tt)
  else update_files_dictionary w root prefix.

(** [add_files] called for one mount after the other, as a caller that
    layers directories does. *)
Definition add_all (w : WhiteNoise) (mounts : list (string * option string))
  : WhiteNoise :=
  fold_left (fun w m => fst (add_files w m.1 m.2)) mounts w.

(** A candidate that [find_file] tries and that turns out missing. *)
Definition missing_at (w : WhiteNoise) (url : string)
    (mount : string * string) : Prop :=
  Str.startswith url mount.2 = true ->
  exists x,
    get_static_file w
      (Posixpath.join mount.1 (Str.drop (String.length mount.2) url)) url
    = Raise x /\ is_MissingFileError x = true.

(** The loops of [update_files_dictionary] as one loop over the paths. *)
Fixpoint update_paths (w : WhiteNoise) (root prefix : string)
    (paths : list string) : WhiteNoise * result unit :=
  match paths with
  | [] => (w, Ok tt)
  | path :: rest =>
      let url := url_of root prefix path in
      match get_static_file w path url with
      | Ok e => update_paths (set_files w (<[url := e]> (files w)))
                  root prefix rest
      | Raise x => (w, Raise x)
      end
  end.

(** [environ[key]] *)
Definition environ_getitem (environ : Environ) (key : string)
  : result string :=
  match environ !! key with
  | Some v => Ok v
  | None => Raise KeyError
  end.

Definition serve (w : WhiteNoise) (static_file : Entry) (environ : Environ)
  : result WsgiResult :=
  method ← environ_getitem environ "REQUEST_METHOD";
  response ← get_response static_file method environ;
  Ok {| status_line := Str.of_Z (status response) +:+ " " +:+ phrase response;
        response_headers := headers response;
        body := match file response with Some b => b | None => [] end |}.

(** [WhiteNoise.__call__] *)
Definition __call__ (w : WhiteNoise) (environ : Environ)
  : result WsgiResult :=
  path_info ← environ_getitem environ "PATH_INFO";
  let path := decode_path_info path_info in
  static_file ← (if autorefresh w then find_file w path
                 else Ok (files w !! path));
  match static_file with
  | None => application w environ
  | Some sf => serve w sf environ
  end.

End Methods.

(* ===================================================================== *)
(** ** [WhiteNoise.__init__] *)
(* ===================================================================== *)

(** [config_attrs]: the attributes keyword arguments may set. *)
Definition config_attrs : list string :=
  [ "autorefresh"; "max_age"; "allow_all_origins"; "charset"; "mimetypes";
    "add_headers_function" ].

Section Init.

(** The values of keyword arguments, whatever they are, and
    [utils.decode_if_byte_string]. *)
Context {V : Type} (decode_if_byte_string : V -> V).

(** One turn of the loop over [config_attrs]: the keyword arguments left
    and the attributes set on the instance so far.  [kwargs.pop(attr)]
    either removes the argument, which is then decoded and set, or raises
    [KeyError], which is passed over. *)
Definition pop_config_attr (st : gmap string V * gmap string V)
    (attr : string) : gmap string V * gmap string V :=
  match st.1 !! attr with
  | Some value =>
      (delete attr st.1, <[attr := decode_if_byte_string value]> st.2)
  | None => st
  end.

(** The first part of [__init__]: the attributes the keyword arguments
    set, or [TypeError] when an argument is left over. *)
Definition init_config (kwargs : gmap string V) : result (gmap string V) :=
  let st := fold_left pop_config_attr config_attrs (kwargs, ∅) in
  if decide (st.1 = ∅) then Ok st.2 else Raise TypeError.

End Init.

(** The second part of [__init__], on the instance as configured: the
    mapping and the list of mounts start empty, and [root], when given, is
    registered. *)
Definition init_registry `{Platform} (w : WhiteNoise)
    (root prefix : option string) : WhiteNoise * result unit :=
  let w := set_directories (set_files w ∅) [] in
  match root with
  | Some r => add_files w r prefix
  | None => (w, Ok tt)
  end.

(* ===================================================================== *)
(** ** A small concrete platform *)
(* ===================================================================== *)

(** A filesystem of four regular files and the library functions tabulated
    on the values the examples meet; the statements below that name
    [sample_platform] evaluate it at those values only.

    - [/srv/static/app.js] and [/srv/theme/app.js], readable;
    - [/srv/static/secret.js], which [os.stat] sees and [open] refuses;
    - [/etc/passwd], readable, outside every mount; the operating system
      resolves [/srv/static/../etc/passwd] to it. *)
Module Sample.

Definition app_js : list Byte.byte := list_byte_of_string "console.log;".
Definition theme_js : list Byte.byte := list_byte_of_string "alert(1);".
Definition passwd : list Byte.byte := list_byte_of_string "root:x:0:0".

(** [hashlib.md5] and [base64.b64encode] on the three contents. *)
Definition app_js_md5 : list Byte.byte :=
  [Byte.x93; Byte.x94; Byte.x5d; Byte.x22; Byte.xb6; Byte.xa7; Byte.xff;
   Byte.x67; Byte.x5d; Byte.x84; Byte.xb3; Byte.xa7; Byte.xbd; Byte.x73;
   Byte.x44; Byte.xf3].
Definition theme_js_md5 : list Byte.byte :=
  [Byte.x13; Byte.x60; Byte.x92; Byte.x3f; Byte.xa2; Byte.x51; Byte.x6b;
   Byte.x61; Byte.xe0; Byte.xcc; Byte.x13; Byte.x36; Byte.xed; Byte.xd2;
   Byte.x59; Byte.x3f].
Definition passwd_md5 : list Byte.byte :=
  [Byte.x0b; Byte.x36; Byte.x3a; Byte.xc5; Byte.xe4; Byte.x38; Byte.x49;
   Byte.x4f; Byte.xb8; Byte.x56; Byte.x35; Byte.x99; Byte.x98; Byte.x21;
   Byte.x7d; Byte.x25].

Definition same_bytes (a b : list Byte.byte) : bool :=
  Str.eqb (string_of_list_byte a) (string_of_list_byte b).

Definition md5_digest (data : list Byte.byte) : list Byte.byte :=
  if same_bytes data app_js then app_js_md5
  else if same_bytes data theme_js then theme_js_md5
  else if same_bytes data passwd then passwd_md5
  else [].

Definition b64 (data : list Byte.byte) : string :=
  if same_bytes data app_js_md5 then "k5RdIran/2ddhLOnvXNE8w=="
  else if same_bytes data theme_js_md5 then "E2CSP6JRa2HgzBM27dJZPw=="
  else if same_bytes data passwd_md5 then "CzY6xeQ4SU+4VjWZmCF9JQ=="
  else "".

Definition stat (path : string) : result file_stat :=
  if Str.eqb path "/srv/static/app.js"
  then Ok {| st_mtime := 1428752826; st_size := 12 |}
  else if Str.eqb path "/srv/theme/app.js"
  then Ok {| st_mtime := 1500000000; st_size := 9 |}
  else if Str.eqb path "/srv/static/secret.js"
  then Ok {| st_mtime := 1500000000; st_size := 4 |}
  else if Str.eqb path "/etc/passwd"
          || Str.eqb path "/srv/static/../etc/passwd"
  then Ok {| st_mtime := 1428752826; st_size := 10 |}
  else Raise MissingFileError.

Definition read (path : string) : result (list Byte.byte) :=
  if Str.eqb path "/srv/static/app.js" then Ok app_js
  else if Str.eqb path "/srv/theme/app.js" then Ok theme_js
  else if Str.eqb path "/etc/passwd"
          || Str.eqb path "/srv/static/../etc/passwd"
  then Ok passwd
  else if Str.eqb path "/srv/static/secret.js" then Raise PermissionError
  else Raise OSError.

Definition os_walk (root : string)
  : list (string * list string * list string) :=
  if Str.eqb root "/srv/static"
  then [("/srv/static", [], ["app.js"; "secret.js"])]
  else if Str.eqb root "/srv/theme"
  then [("/srv/theme", [], ["app.js"])]
  else [].

(** [relpath] of a path below [start] *)
Definition os_relpath (path start : string) : string :=
  if Str.startswith path (start +:+ "/")
  then Str.drop (S (String.length start)) path
  else path.

Definition format_date (t : Z) : string :=
  if Z.eqb t 1428752826 then "Sat, 11 Apr 2015 11:47:06 GMT"
  else if Z.eqb t 1500000000 then "Fri, 14 Jul 2017 02:40:00 GMT"
  else "Thu, 01 Jan 1970 00:00:00 GMT".

Definition parse_date (s : string) : option time_tuple :=
  if Str.eqb s "Sat, 11 Apr 2015 11:47:06 GMT"
  then Some [2015; 4; 11; 11; 47; 6; 0; 1; -1]
  else if Str.eqb s "Fri, 14 Jul 2017 02:40:00 GMT"
  then Some [2017; 7; 14; 2; 40; 0; 0; 1; -1]
  else if Str.eqb s "Fri, 11 Apr 2100 11:47:06 GMT"
  then Some [2100; 4; 11; 11; 47; 6; 0; 1; -1]
  else if Str.eqb s "Fri, 11 Apr 2001 11:47:06 GMT"
  then Some [2001; 4; 11; 11; 47; 6; 0; 1; -1]
  else None.

Definition media_type (path : string) : string :=
  "application/javascript".

(** [s.strip('/')] *)
Fixpoint lstrip_sep (s : string) : string :=
  match s with
  | String "/" r => lstrip_sep r
  | _ => s
  end.

Fixpoint rstrip_sep (s : string) : string :=
  match s with
  | EmptyString => EmptyString
  | String a r =>
      match rstrip_sep r with
      | EmptyString =>
          if Ascii.eqb a "/" then EmptyString else String a EmptyString
      | r' => String a r'
      end
  end.

(** The prefix between exactly one leading and one trailing slash. *)
Definition leading_trailing_slash (prefix : option string) : string :=
  let path := rstrip_sep (lstrip_sep (default "" prefix)) in
  if Str.truthy (Some path) then "/" +:+ path +:+ "/" else "/".

Definition init (path : string) (h : Headers) : result StaticFile :=
  Ok {| sf_path := path; sf_headers := h;
        last_modified := Hdr.getitem h "Last-Modified" ≫= parse_date |}.

Definition respond (e : Entry) (method : string) (environ : Environ)
  : result Response :=
  let sf := match e with PlainFile sf => sf | HashedFile sf _ => sf end in
  if Str.eqb method "GET" || Str.eqb method "HEAD" then
    body ← read (sf_path sf);
    Ok {| status := 200; phrase := "OK"; headers := sf_headers sf;
          file := if Str.eqb method "GET" then Some body else None |}
  else
    Ok {| status := 405; phrase := "Method Not Allowed";
          headers := [("Allow", "GET, HEAD")]; file := None |}.

(** The wrapped application: it answers every request the same way. *)
Definition hello (environ : Environ) : result WsgiResult :=
  Ok {| status_line := "200 OK";
        response_headers := [("Content-Type", "text/plain")];
        body := list_byte_of_string "Hello world!" |}.

End Sample.

#[local] Instance sample_platform : Platform := {|
  stat_regular_file := Sample.stat;
  read_file := Sample.read;
  walk := Sample.os_walk;
  relpath := Sample.os_relpath;
  formatdate := Sample.format_date;
  parsedate := Sample.parse_date;
  md5 := Sample.md5_digest;
  b64encode := Sample.b64;
  get_type := Sample.media_type;
  ensure_leading_trailing_slash := Sample.leading_trailing_slash;
  decode_path_info := fun s => s;
  StaticFile_init := Sample.init;
  get_response := Sample.respond
|}.

(** The same platform at a moment when [/srv/static/gone.js] has been
    removed after [os.walk] listed it. *)
Definition racy_platform : Platform := {|
  stat_regular_file := Sample.stat;
  read_file := Sample.read;
  walk := fun root =>
    if Str.eqb root "/srv/static"
    then [("/srv/static", [], ["app.js"; "gone.js"; "secret.js"])]
    else Sample.os_walk root;
  relpath := Sample.os_relpath;
  formatdate := Sample.format_date;
  parsedate := Sample.parse_date;
  md5 := Sample.md5_digest;
  b64encode := Sample.b64;
  get_type := Sample.media_type;
  ensure_leading_trailing_slash := Sample.leading_trailing_slash;
  decode_path_info := fun s => s;
  StaticFile_init := Sample.init;
  get_response := Sample.respond
|}.

(** [WhiteNoise(hello, autorefresh=...)] and [HashedEtagWhiteNoise(...)]
    before any [add_files], with the class defaults for the rest. *)
Definition new_instance (c : Class) (auto : bool) : WhiteNoise :=
  {| cls := c; autorefresh := auto; max_age := Some 60;
     allow_all_origins := true; charset := Some "utf-8";
     add_headers_function := None;
     is_immutable_file := default_is_immutable_file;
     add_extra_headers := default_add_extra_headers;
     application := Sample.hello;
     files := ∅; directories := [] |}.

(** The values the examples below are stated on. *)

(** The validator and the header of an entry whose etag is ["abc"], asked
    with a weak first tag, the right tag in the middle and a dangling
    comma. *)
Definition abc_etag : string := quoted "abc".
Definition abc_header : string :=
  "W/" +:+ quoted "x" +:+ ", " +:+ abc_etag +:+ " , what,".

Definition entry_2015 : StaticFile :=
  {| sf_path := "/srv/static/app.js"; sf_headers := [];
     last_modified := Some [2015; 4; 11; 11; 47; 6; 0; 1; -1] |}.

Definition garbage_request : Environ :=
  {[ "HTTP_IF_MODIFIED_SINCE" := "garbage" ]}.

Definition since_2015 : Environ :=
  {[ "HTTP_IF_MODIFIED_SINCE" := "Sat, 11 Apr 2015 11:47:06 GMT" ]}.

Definition since_2100 : Environ :=
  {[ "HTTP_IF_MODIFIED_SINCE" := "Fri, 11 Apr 2100 11:47:06 GMT" ]}.

Definition since_2001 : Environ :=
  {[ "HTTP_IF_MODIFIED_SINCE" := "Fri, 11 Apr 2001 11:47:06 GMT" ]}.

Definition get_app_js : Environ :=
  {[ "PATH_INFO" := "/app.js"; "REQUEST_METHOD" := "GET" ]}.

Definition get_not_static : Environ :=
  {[ "PATH_INFO" := "/not/static"; "REQUEST_METHOD" := "GET" ]}.

(** A production site: [autorefresh] off, [/srv/static] registered at [/]. *)
Definition static_site : WhiteNoise :=
  fst (add_files (new_instance WhiteNoiseClass false) "/srv/static" None).

(** A development site: [autorefresh] on, [/srv/static] mounted at [/]. *)
Definition dynamic_site (c : Class) : WhiteNoise :=
  fst (add_files (new_instance c true) "/srv/static" None).

(** The entry of [/srv/static/app.js]. *)
Definition static_entry : Entry :=
  PlainFile
    {| sf_path := "/srv/static/app.js";
       sf_headers :=
         [("Last-Modified", "Sat, 11 Apr 2015 11:47:06 GMT");
          ("Content-Length", "12");
          ("Content-Type",
           "application/javascript; charset=" +:+ quoted "utf-8");
          ("Cache-Control", "max-age=60, public");
          ("Access-Control-Allow-Origin", "*")];
       last_modified := Some [2015; 4; 11; 11; 47; 6; 0; 1; -1] |}.

Definition get_passwd : Environ :=
  {[ "PATH_INFO" := "/../etc/passwd"; "REQUEST_METHOD" := "GET" ]}.

Definition theme_entry : Entry :=
  PlainFile
    {| sf_path := "/srv/theme/app.js";
       sf_headers :=
         [("Last-Modified", "Fri, 14 Jul 2017 02:40:00 GMT");
          ("Content-Length", "9");
          ("Content-Type",
           "application/javascript; charset=" +:+ quoted "utf-8");
          ("Cache-Control", "max-age=60, public");
          ("Access-Control-Allow-Origin", "*")];
       last_modified := Some [2017; 7; 14; 2; 40; 0; 0; 1; -1] |}.

(* ===================================================================== *)
(** ** The conditional evaluator as the design document words it *)
(* ===================================================================== *)

(** These follow the prose of the design document, not the code; they are
    what the code is compared with. *)
Module Design.

(** A token without its weak prefix. *)
Definition drop_weak (t : string) : string :=
  if Str.startswith t "W/" then Str.drop 2 t else t.

Fixpoint ltrim_quotes (s : string) : string :=
  match s with
  | EmptyString => EmptyString
  | String a r => if Ascii.eqb a DQUOTE then ltrim_quotes r else s
  end.

Fixpoint rtrim_quotes (s : string) : string :=
  match s with
  | EmptyString => EmptyString
  | String a r =>
      match rtrim_quotes r with
      | EmptyString =>
          if Ascii.eqb a DQUOTE then EmptyString else String a EmptyString
      | r' => String a r'
      end
  end.

(** A token of the list with whitespace and weak prefix trimmed ... *)
Definition bare (t : string) : string :=
  Str.strip (drop_weak (Str.strip t)).

(** ... and with its quote characters trimmed too. *)
Definition opaque (t : string) : string :=
  rtrim_quotes (ltrim_quotes (bare t)).

(** "If any parsed tag equals the entry's validator, or the wildcard is
    present, the result is NOT_MODIFIED; otherwise FRESH."  The validator is
    compared as the opaque value it quotes. *)
Definition if_none_match (validator inm_header : string) : bool :=
  existsb (fun t => Str.eqb (opaque t) (rtrim_quotes (ltrim_quotes validator))
                    || Str.eqb (bare t) "*")
          (Str.split "," inm_header).

(** The decision order of the evaluator: If-None-Match when present;
    else If-Modified-Since, when the entry has no validator configured;
    else FRESH.  [true] is NOT_MODIFIED.  An unparseable date counts as
    absent. *)
Definition not_modified `{Platform} (sf : StaticFile)
    (validator : option string) (request_headers : Environ) : bool :=
  match request_headers !! "HTTP_IF_NONE_MATCH" with
  | Some v => _if_none_match_etag validator v
  | None =>
      match validator, request_headers !! "HTTP_IF_MODIFIED_SINCE" with
      | None, Some d =>
          match parsedate d, last_modified sf with
          | Some t, Some m => tuple_ge t m
          | _, _ => false
          end
      | _, _ => false
      end
  end.

(** "hash the full file content, base64-encode the digest, quote it" *)
Definition etag_of `{Platform} (data : list Byte.byte) : string :=
  quoted (b64encode (md5 data)).

(** The step that stores it as the entry's validator. *)
Definition add_etag_headers `{Platform} (h : Headers) (path url : string)
  : result Headers :=
  data ← read_file path;
  Ok (Hdr.setitem h "etag" (etag_of data)).

End Design.

(* ===================================================================== *)
(** * Properties *)
(* ===================================================================== *)

(** ** The library models on the values of the Python documentation and
    test-suite *)

Example split_keeps_empty_tokens :
  Str.split "," "a,b,,c," = ["a"; "b"; ""; "c"; ""] /\
  Str.split "," "" = [""].
Proof. split; reflexivity. Qed.

Example strip_whitespace : Str.strip "  ab c  " = "ab c".
Proof. reflexivity. Qed.

Example format_one_field :
  Str.format (quoted "{:s}") "xy" = quoted "xy" /\
  Str.format "max-age={0}, public" (Str.of_Z 1000) = "max-age=1000, public".
Proof. split; reflexivity. Qed.

Example str_has_no_update :
  Str.call_method (quoted "{:s}") "update" "xy" = Raise AttributeError.
Proof. reflexivity. Qed.

Example normpath_examples :
  Posixpath.normpath "/../etc/passwd" = "/etc/passwd" /\
  Posixpath.normpath "/a/b/../c//d/./e" = "/a/c/d/e" /\
  Posixpath.normpath "../a" = "../a" /\
  Posixpath.normpath "//a" = "//a" /\
  Posixpath.normpath "///a" = "/a" /\
  Posixpath.normpath "a/.." = "." /\
  Posixpath.normpath "/subdir/javascript.js" = "/subdir/javascript.js".
Proof. repeat split; reflexivity. Qed.

Example join_examples :
  Posixpath.join "/srv/static" "app.js" = "/srv/static/app.js" /\
  Posixpath.join "/srv/static/" "app.js" = "/srv/static/app.js" /\
  Posixpath.join "/srv/static" "/etc/passwd" = "/etc/passwd".
Proof. repeat split; reflexivity. Qed.

Example headers_ignore_case :
  Hdr.getitem (Hdr.setitem (Hdr.setitem [] "ETag" "a") "etag" "b") "Etag"
  = Some "b".
Proof. reflexivity. Qed.

Example forever_is_ten_years : FOREVER = 315360000.
Proof. reflexivity. Qed.

Example sample_entry :
  find_file (dynamic_site WhiteNoiseClass) "/app.js"
  = Ok (Some (PlainFile
      {| sf_path := "/srv/static/app.js";
         sf_headers :=
           [("Last-Modified", "Sat, 11 Apr 2015 11:47:06 GMT");
            ("Content-Length", "12");
            ("Content-Type",
             "application/javascript; charset=" +:+ quoted "utf-8");
            ("Cache-Control", "max-age=60, public");
            ("Access-Control-Allow-Origin", "*")];
         last_modified := Some [2015; 4; 11; 11; 47; 6; 0; 1; -1] |})).
Proof. reflexivity. Qed.

(** The If-None-Match values of the test-suite, for an entry whose etag
    is ["abc"]: the tag in the middle of a list, a weak first tag with a
    dangling comma, and the values that must not match. *)
Example if_none_match_test_values :
  _if_none_match_etag (Some abc_etag)
    (quoted "something" +:+ "," +:+ quoted "weid" +:+ ", "
     +:+ quoted "breakmyparser" +:+ "," +:+ abc_etag +:+ ", "
     +:+ quoted "random" +:+ ", " +:+ quoted "whatever") = true /\
  _if_none_match_etag (Some abc_etag)
    ("W/" +:+ quoted "randomvalue" +:+ ", " +:+ quoted "somevalue" +:+ ", "
     +:+ abc_etag +:+ ", what,") = true /\
  _if_none_match_etag (Some abc_etag) abc_etag = true /\
  _if_none_match_etag (Some abc_etag) ("W/" +:+ abc_etag) = true /\
  _if_none_match_etag (Some abc_etag) "invalid" = false /\
  _if_none_match_etag (Some abc_etag) (quoted "invalid") = false /\
  _if_none_match_etag (Some abc_etag) ("W/" +:+ quoted "randomstuff") = false /\
  _if_none_match_etag (Some abc_etag)
    ("W/,," +:+ quoted "random,stuff" +:+ ",") = false.
Proof. repeat split; reflexivity. Qed.

(** ** Strings *)

Lemma Str_eqb_eq (a b : string) : Str.eqb a b = true <-> a = b.
Proof. apply String.eqb_eq. Qed.

Lemma Str_eqb_neq (a b : string) : Str.eqb a b = false <-> a <> b.
Proof. apply String.eqb_neq. Qed.

Lemma Str_truthy_Some (s : string) : Str.truthy (Some s) = true <-> s <> "".
Proof. destruct s; simpl; split; congruence. Qed.

Lemma split_not_nil (sep : ascii) (s : string) : Str.split sep s <> [].
Proof.
  induction s as [|a r IH]; simpl; [discriminate|].
  destruct (Ascii.eqb a sep); [discriminate|].
  destruct (Str.split sep r); [contradiction|discriminate].
Qed.

(** Splitting after a first character that is not the separator. *)
Lemma split_cons_other (sep a : ascii) (r : string) :
  Ascii.eqb a sep = false ->
  exists t ts, Str.split sep r = t :: ts /\
               Str.split sep (String a r) = String a t :: ts.
Proof.
  intros Ha. simpl. rewrite Ha.
  destruct (Str.split sep r) as [|t ts] eqn:E.
  - exfalso. exact (split_not_nil _ _ E).
  - exists t, ts. split; reflexivity.
Qed.

Lemma rstrip_cons_nonspace (a : ascii) (r : string) :
  Str.isspace a = false -> Str.rstrip (String a r) = String a (Str.rstrip r).
Proof.
  intros Ha. simpl. rewrite Ha. destruct (Str.rstrip r); reflexivity.
Qed.

Lemma startswith_weak (t : string) :
  Str.startswith t "W/" = true <-> exists r, t = String "W" (String "/" r).
Proof.
  split.
  - destruct t as [|a [|b r]]; simpl; try discriminate.
    + rewrite andb_false_r. discriminate.
    + intros H. apply andb_true_iff in H as [Ha Hb].
      apply andb_true_iff in Hb as [Hb _].
      apply Ascii.eqb_eq in Ha, Hb. subst. exists r. reflexivity.
  - intros [r ->]. reflexivity.
Qed.

(** A token that begins with the weak prefix still does once stripped. *)
Lemma strip_keeps_weak (t : string) :
  Str.startswith t "W/" = true -> Str.startswith (Str.strip t) "W/" = true.
Proof.
  intros H. apply startswith_weak in H as [r ->].
  unfold Str.strip. cbn [Str.lstrip].
  replace (Str.isspace "W") with false by reflexivity.
  rewrite !rstrip_cons_nonspace by reflexivity.
  apply startswith_weak. eauto.
Qed.

(** ** The loop over the client's tags *)

Lemma compare_etags_true (etag : option string) (l : list string) :
  snd (compare_etags etag l) = true <->
  exists t, t ∈ l /\ Some (Str.strip t) = etag.
Proof.
  induction l as [|t l IH]; simpl.
  - split; [discriminate|]. intros (t & Ht & _). inversion Ht.
  - destruct (decide (Some (Str.strip t) = etag)) as [E|E]; simpl.
    + split; [|reflexivity]. intros _. exists t. split; [left|exact E].
    + destruct (compare_etags etag l) as [seen r]; simpl in *.
      rewrite IH. split.
      * intros (t' & Ht' & E'). exists t'. split; [right; exact Ht'|exact E'].
      * intros (t' & Ht' & E').
        apply elem_of_cons in Ht' as [->|Ht']; [contradiction|].
        exists t'. split; assumption.
Qed.

(** ** If-None-Match *)

Lemma drop_weak_id (t : string) :
  Str.startswith (Str.strip t) "W/" <> true -> Design.drop_weak t = t.
Proof.
  intros H. unfold Design.drop_weak.
  destruct (Str.startswith t "W/") eqn:E; [|reflexivity].
  exfalso. apply H, strip_keeps_weak, E.
Qed.

(** The tokens of a header that opens with the weak prefix: the prefix sits
    on the first token, and dropping it from the header drops it there. *)
Lemma split_weak_header (r : string) :
  exists t ts,
    Str.split "," r = t :: ts /\
    Str.split "," (String "W" (String "/" r)) = String "W" (String "/" t) :: ts.
Proof.
  destruct (split_cons_other "," "/" r eq_refl) as (t & ts & E1 & E2).
  destruct (split_cons_other "," "W" (String "/" r) eq_refl)
    as (t' & ts' & E3 & E4).
  rewrite E2 in E3. injection E3 as Et Ets. subst t' ts'.
  exists t, ts. split; assumption.
Qed.

(** What [_if_none_match_etag] computes, in full. *)
Lemma if_none_match_etag_true (e h : string) :
  _if_none_match_etag (Some e) h = true <->
  e <> "" /\ h <> "" /\
  exists t, t ∈ Str.split "," (Design.drop_weak h) /\ Str.strip t = e.
Proof.
  unfold _if_none_match_etag, if_none_match_etag_seen.
  change (if Str.startswith h "W/" then Str.drop 2 h else h)
    with (Design.drop_weak h).
  destruct (Str.truthy (Some e)) eqn:He;
    destruct (Str.truthy (Some h)) eqn:Hh; cbn [negb orb snd].
  - apply Str_truthy_Some in He, Hh. rewrite compare_etags_true. split.
    + intros (t & Ht & E). injection E as E.
      split; [exact He|]. split; [exact Hh|]. exists t. split; assumption.
    + intros (_ & _ & t & Ht & E). exists t. split; [exact Ht|congruence].
  - split; [discriminate|]. intros (_ & Hh' & _).
    apply Str_truthy_Some in Hh'. congruence.
  - split; [discriminate|]. intros (He' & _).
    apply Str_truthy_Some in He'. congruence.
  - split; [discriminate|]. intros (He' & _).
    apply Str_truthy_Some in He'. congruence.
Qed.

(** C2 (as amended).  For a header value whose only weak prefix, if any,
    opens the value, and an entry whose validator is not empty:
    [_if_none_match_etag] answers NOT_MODIFIED exactly when some token of
    the comma-separated value, its weak prefix dropped and the whitespace
    around it stripped, is the entry's validator as stored, quotes
    included.  Quote characters are not trimmed and [*] is a token like any
    other.  The function is total: no header value makes it fail. *)
Theorem if_none_match_leading_weak (e h : string) :
  e <> "" ->
  (forall (i : nat) (t : string),
      Str.split "," h !! i = Some t ->
      Str.startswith (Str.strip t) "W/" = true ->
      i = 0%nat /\ Str.startswith h "W/" = true) ->
  (_if_none_match_etag (Some e) h = true <->
   exists t, t ∈ Str.split "," h /\ Str.strip (Design.drop_weak t) = e).
Proof.
  intros He Hweak. rewrite if_none_match_etag_true.
  assert (Hh : (exists t, t ∈ Str.split "," h /\
                          Str.strip (Design.drop_weak t) = e) -> h <> "").
  { intros (t & Ht & E) ->. simpl in Ht.
    apply list_elem_of_singleton in Ht. subst t. apply He. symmetry. exact E. }
  unfold Design.drop_weak at 1.
  destruct (Str.startswith h "W/") eqn:Hw.
  - apply startswith_weak in Hw as [r ->].
    destruct (split_weak_header r) as (t0 & ts & E1 & E2).
    simpl Str.drop. rewrite E1. rewrite E2 in Hh, Hweak |- *.
    assert (Hts : forall t, t ∈ ts -> Design.drop_weak t = t).
    { intros t Ht. apply drop_weak_id. intros Hs.
      apply list_elem_of_lookup in Ht as [i Hi].
      destruct (Hweak (S i) t Hi Hs) as [Hi0 _]. discriminate Hi0. }
    split.
    + intros (_ & _ & t & Ht & E). apply elem_of_cons in Ht as [->|Ht].
      * exists (String "W" (String "/" t0)). split; [left|exact E].
      * exists t. split; [right; exact Ht|]. rewrite (Hts t Ht). exact E.
    + intros H. split; [exact He|]. split; [discriminate|].
      destruct H as (t & Ht & E). apply elem_of_cons in Ht as [->|Ht].
      * exists t0. split; [left|exact E].
      * exists t. split; [right; exact Ht|]. rewrite <- (Hts t Ht). exact E.
  - assert (Hts : forall t, t ∈ Str.split "," h -> Design.drop_weak t = t).
    { intros t Ht. apply drop_weak_id. intros Hs.
      apply list_elem_of_lookup in Ht as [i Hi].
      destruct (Hweak i t Hi Hs) as [_ Hw']. congruence. }
    split.
    + intros (_ & _ & t & Ht & E). exists t. split; [exact Ht|].
      rewrite (Hts t Ht). exact E.
    + intros H. split; [exact He|]. split; [exact (Hh H)|].
      destruct H as (t & Ht & E). exists t. split; [exact Ht|].
      rewrite <- (Hts t Ht). exact E.
Qed.

Lemma if_none_match_leading_weak_witness :
  _if_none_match_etag (Some abc_etag) abc_header = true <->
  exists t, t ∈ Str.split "," abc_header /\
            Str.strip (Design.drop_weak t) = abc_etag.
Proof.
  apply (if_none_match_leading_weak abc_etag abc_header).
  - discriminate.
  - intros i t Hi Hs.
    destruct i as [|[|[|[|i]]]]; simpl in Hi; inversion Hi; subst t;
      first [ split; reflexivity | discriminate Hs ].
Defined.

(** C2 (as stated) fails: the header [*] is the bare wildcard, so the
    design answers NOT_MODIFIED for the entry whose validator is ["abc"];
    the code compares [*] with the validator and answers FRESH. *)
Lemma if_none_match_wildcard_counterexample :
  Design.if_none_match abc_etag "*" = true /\
  _if_none_match_etag (Some abc_etag) "*" = false.
Proof. split; reflexivity. Qed.

(** C9.  When the entry's etag is [None] or empty, or the If-None-Match
    value is the empty string, [_if_none_match_etag] returns [False]
    having compared no token at all, and the evaluation of a request that
    carries such a header is FRESH. *)
Theorem if_none_match_guard `{Platform} (etag : option string) (h : string) :
  Str.truthy etag = false \/ h = "" ->
  if_none_match_etag_seen etag h = ([], false) /\
  _if_none_match_etag etag h = false /\
  forall (sf : StaticFile) (req : Environ),
    file_not_modified sf etag (<["HTTP_IF_NONE_MATCH" := h]> req) = Ok false.
Proof.
  intros Hg.
  assert (E : if_none_match_etag_seen etag h = ([], false)).
  { unfold if_none_match_etag_seen. destruct Hg as [-> | ->].
    - reflexivity.
    - rewrite orb_true_r. reflexivity. }
  split; [exact E|]. unfold _if_none_match_etag. rewrite E.
  split; [reflexivity|]. intros sf req. unfold file_not_modified.
  rewrite lookup_insert_eq. unfold _if_none_match_etag. rewrite E. reflexivity.
Qed.

Lemma if_none_match_guard_witness :
  (if_none_match_etag_seen None abc_header = ([], false) /\
   _if_none_match_etag None abc_header = false /\
   forall (sf : StaticFile) (req : Environ),
     file_not_modified sf None (<["HTTP_IF_NONE_MATCH" := abc_header]> req)
     = Ok false) /\
  (if_none_match_etag_seen (Some abc_etag) "" = ([], false) /\
   _if_none_match_etag (Some abc_etag) "" = false /\
   forall (sf : StaticFile) (req : Environ),
     file_not_modified sf (Some abc_etag) (<["HTTP_IF_NONE_MATCH" := ""]> req)
     = Ok false).
Proof.
  split.
  - apply (if_none_match_guard None abc_header). left. reflexivity.
  - apply (if_none_match_guard (Some abc_etag) ""). right. reflexivity.
Defined.

(** ** If-Modified-Since *)

(** C3.  A request without If-None-Match whose If-Modified-Since value
    [parsedate] does not understand: [file_not_modified] compares [None]
    with the entry's modification time, which raises [TypeError], where the
    design wants the header treated as absent and the answer FRESH. *)
Theorem file_not_modified_unparseable_date `{Platform}
    (sf : StaticFile) (etag : option string) (req : Environ) (v : string) :
  req !! "HTTP_IF_NONE_MATCH" = None ->
  req !! "HTTP_IF_MODIFIED_SINCE" = Some v ->
  parsedate v = None ->
  file_not_modified sf etag req = Raise TypeError.
Proof.
  intros Hinm Hims Hv. unfold file_not_modified.
  rewrite Hinm, Hims, Hv. reflexivity.
Qed.

Lemma file_not_modified_unparseable_date_witness :
  file_not_modified entry_2015 (Some abc_etag) garbage_request
  = Raise TypeError.
Proof.
  apply (file_not_modified_unparseable_date entry_2015 (Some abc_etag)
           garbage_request "garbage"); reflexivity.
Defined.

(** C6 (as amended).  If-Modified-Since is consulted exactly when the
    request carries no If-None-Match header, whether or not the entry has
    a validator.  With If-None-Match present the answer is that of
    [_if_none_match_etag] alone, whatever else the request and the entry
    hold.  Without it the answer is FRESH when If-Modified-Since is absent;
    when it holds a date and the entry has a modification time the answer
    is their comparison, NOT_MODIFIED for a date not before that time,
    whatever the entry's etag. *)
Theorem if_modified_since_without_if_none_match `{Platform}
    (sf : StaticFile) (etag : option string) (req : Environ) :
  (forall v : string,
      file_not_modified sf etag (<["HTTP_IF_NONE_MATCH" := v]> req)
      = Ok (_if_none_match_etag etag v)) /\
  match req !! "HTTP_IF_MODIFIED_SINCE" with
  | None =>
      file_not_modified sf etag (delete "HTTP_IF_NONE_MATCH" req) = Ok false
  | Some d =>
      match parsedate d, last_modified sf with
      | Some t, Some m =>
          file_not_modified sf etag (delete "HTTP_IF_NONE_MATCH" req)
          = Ok (tuple_ge t m)
      | _, _ => True
      end
  end.
Proof.
  split.
  - intros v. unfold file_not_modified. rewrite lookup_insert_eq. reflexivity.
  - unfold file_not_modified. rewrite lookup_delete_eq.
    rewrite lookup_delete_ne by discriminate.
    destruct (req !! "HTTP_IF_MODIFIED_SINCE") as [d|]; [|reflexivity].
    destruct (parsedate d) as [t|]; [|exact I].
    destruct (last_modified sf) as [m|]; [reflexivity|exact I].
Qed.

(** C6 (as stated) fails: the entry has the validator ["abc"], the request
    has no If-None-Match, and still the answer follows If-Modified-Since
    (NOT_MODIFIED for a date in 2100, FRESH for one in 2001), where the
    design's decision order answers FRESH without looking at it. *)
Lemma if_modified_since_with_validator_counterexample :
  Design.not_modified entry_2015 (Some abc_etag) since_2100 = false /\
  file_not_modified entry_2015 (Some abc_etag) since_2100 = Ok true /\
  file_not_modified entry_2015 (Some abc_etag) since_2001 = Ok false.
Proof. repeat split; vm_compute; reflexivity. Qed.

(** ** Dynamic resolution *)

Section Resolution.

Context `{P : Platform}.

Lemma find_in_skip (w : WhiteNoise) (url : string)
    (ds1 ds2 : list (string * string)) :
  (forall m, m ∈ ds1 -> missing_at w url m) ->
  snd (find_in w url (ds1 ++ ds2)) = snd (find_in w url ds2).
Proof.
  induction ds1 as [|[root prefix] ds1 IH]; intros Hmiss; [reflexivity|].
  assert (IH' : (find_in w url (ds1 ++ ds2)).2 = (find_in w url ds2).2).
  { apply IH. intros m Hm. apply Hmiss. right. exact Hm. }
  cbn [app find_in].
  destruct (Str.startswith url prefix) eqn:Hp; [|exact IH'].
  destruct (Hmiss (root, prefix)) as (x & Hx & Hmx); [left|exact Hp|].
  cbn [fst snd] in Hx. rewrite Hx, Hmx.
  destruct (find_in w url (ds1 ++ ds2)) as [probed r]. exact IH'.
Qed.

Lemma find_in_all_missing (w : WhiteNoise) (url : string)
    (ds : list (string * string)) :
  (forall m, m ∈ ds -> missing_at w url m) ->
  snd (find_in w url ds) = Ok None.
Proof.
  intros Hmiss. rewrite <- (app_nil_r ds).
  rewrite find_in_skip by exact Hmiss. reflexivity.
Qed.

(** Past its two guards [find_file] is the loop over the mounts. *)
Lemma find_file_guards_passed (w : WhiteNoise) (url : string) :
  url <> "" -> Posixpath.endswith_sep url = false ->
  Posixpath.normpath url = url ->
  find_file w url = snd (find_in w url (directories w)).
Proof.
  intros Hne Hsep Hnorm. unfold find_file, find_file_probed.
  apply Str_truthy_Some in Hne. rewrite Hne, Hsep.
  apply Str_eqb_eq in Hnorm. rewrite Hnorm. reflexivity.
Qed.

Lemma hashed_read_error (w : WhiteNoise) (path url : string)
    (st : file_stat) (x : exn) :
  cls w = HashedEtagWhiteNoiseClass ->
  stat_regular_file path = Ok st ->
  read_file path = Raise x ->
  get_static_file w path url = Raise x.
Proof.
  intros Hc Hst Hrd. unfold get_static_file. rewrite Hc.
  unfold HashedEtagWhiteNoise_get_static_file, add_stat_headers.
  rewrite Hst. cbn [mbind result_bind].
  unfold add_etag_headers. rewrite Hrd. reflexivity.
Qed.

End Resolution.

(** C4.  [find_file] answers [None] for a url that is empty, that ends in
    a slash, or that [normpath] changes; it does so without handing any
    candidate path to [get_static_file], so whatever the mounts and the
    filesystem hold plays no part, and nothing is raised. *)
Theorem find_file_rejects `{Platform} (w : WhiteNoise) (url : string) :
  url = "" \/ Posixpath.endswith_sep url = true
  \/ Posixpath.normpath url <> url ->
  find_file_probed w url = ([], Ok None) /\ find_file w url = Ok None.
Proof.
  intros Hg.
  assert (E : find_file_probed w url = ([], Ok None)).
  { unfold find_file_probed. destruct Hg as [-> | [Hsep | Hnorm]].
    - reflexivity.
    - rewrite Hsep, orb_true_r. reflexivity.
    - apply Str_eqb_neq in Hnorm. rewrite Hnorm.
      destruct (_ || _); reflexivity. }
  split; [exact E|]. unfold find_file. rewrite E. reflexivity.
Qed.

Lemma find_file_rejects_witness :
  (find_file_probed (dynamic_site WhiteNoiseClass) "/../etc/passwd"
   = ([], Ok None) /\
   find_file (dynamic_site WhiteNoiseClass) "/../etc/passwd" = Ok None) /\
  (find_file_probed (dynamic_site WhiteNoiseClass) "/subdir/" = ([], Ok None) /\
   find_file (dynamic_site WhiteNoiseClass) "/subdir/" = Ok None) /\
  (find_file_probed (dynamic_site WhiteNoiseClass) "" = ([], Ok None) /\
   find_file (dynamic_site WhiteNoiseClass) "" = Ok None).
Proof.
  split; [|split].
  - apply (find_file_rejects (dynamic_site WhiteNoiseClass) "/../etc/passwd").
    right. right. discriminate.
  - apply (find_file_rejects (dynamic_site WhiteNoiseClass) "/subdir/").
    right. left. reflexivity.
  - apply (find_file_rejects (dynamic_site WhiteNoiseClass) "").
    left. reflexivity.
Defined.

(** The guard is what keeps [/../etc/passwd] out: the loop over the mounts,
    entered with that url, finds the file. *)
Example traversal_would_resolve :
  exists e,
    find_in (dynamic_site WhiteNoiseClass) "/../etc/passwd"
            (directories (dynamic_site WhiteNoiseClass))
    = (["/srv/static/../etc/passwd"], Ok (Some e)).
Proof. eexists. vm_compute. reflexivity. Qed.

(** ** Traversal segments *)

Lemma split_has_no_sep (s t : string) :
  t ∈ Str.split "/" s -> Posixpath.has_sep t = false.
Proof.
  revert t. induction s as [|a r IH]; intros t Ht; simpl in Ht.
  - apply list_elem_of_singleton in Ht. subst t. reflexivity.
  - destruct (Ascii.eqb a "/") eqn:Ea.
    + apply elem_of_cons in Ht as [->|Ht]; [reflexivity|apply IH, Ht].
    + destruct (Str.split "/" r) as [|h tl] eqn:Er.
      * apply list_elem_of_singleton in Ht. subst t. simpl. rewrite Ea.
        reflexivity.
      * apply elem_of_cons in Ht as [->|Ht].
        -- simpl. rewrite Ea. apply IH. left.
        -- apply IH. right. exact Ht.
Qed.

Lemma split_nosep (c : string) :
  Posixpath.has_sep c = false -> Str.split "/" c = [c].
Proof.
  induction c as [|a r IH]; simpl; [reflexivity|]. intros Hc.
  apply orb_false_iff in Hc as [Ea Hr]. rewrite Ea, (IH Hr). reflexivity.
Qed.

Lemma split_app_nosep (c rest : string) :
  Posixpath.has_sep c = false ->
  Str.split "/" (c +:+ String "/" rest) = c :: Str.split "/" rest.
Proof.
  induction c as [|a r IH]; simpl; [reflexivity|]. intros Hc.
  apply orb_false_iff in Hc as [Ea Hr]. rewrite Ea, (IH Hr). reflexivity.
Qed.

Lemma split_join (cs : list string) :
  cs <> [] -> Forall (fun c => Posixpath.has_sep c = false) cs ->
  Str.split "/" (Str.join "/" cs) = cs.
Proof.
  induction cs as [|c cs IH]; [congruence|]. intros _ Hall.
  apply Forall_cons in Hall as [Hc Hcs].
  destruct cs as [|c' cs]; [apply split_nosep, Hc|].
  change (Str.join "/" (c :: c' :: cs))
    with (c +:+ String "/" (Str.join "/" (c' :: cs))).
  rewrite split_app_nosep by exact Hc. rewrite IH; [reflexivity| |exact Hcs].
  discriminate.
Qed.

Lemma normpath_step_kept (k : nat) (nc : list string) (comp : string) :
  k <> 0%nat -> Posixpath.has_sep comp = false -> Forall Posixpath.kept nc ->
  Forall Posixpath.kept (Posixpath.normpath_step k nc comp).
Proof.
  intros Hk Hcomp Hnc. unfold Posixpath.normpath_step.
  destruct (Str.eqb comp "" || Str.eqb comp "."); [exact Hnc|].
  destruct (Str.eqb comp "..") eqn:Edd.
  - assert (Hlast : (negb (Posixpath.is_nil nc)
                     && Str.eqb (List.last nc "") "..") = false).
    { destruct nc as [|c0 nc0]; [reflexivity|].
      cbn [Posixpath.is_nil negb andb].
      apply Str_eqb_neq. intros Hl.
      assert (Hin : In (List.last (c0 :: nc0) "") (c0 :: nc0)).
      { rewrite (app_removelast_last (l := c0 :: nc0) "") at 2 by discriminate.
        apply in_or_app. right. left. reflexivity. }
      apply list_elem_of_In in Hin.
      rewrite Forall_forall in Hnc. destruct (Hnc _ Hin) as [Hne _].
      exact (Hne Hl). }
    rewrite Hlast.
    replace (Nat.eqb k 0) with false
      by (symmetry; apply Nat.eqb_neq; exact Hk).
    cbn [negb andb orb].
    destruct (negb (Posixpath.is_nil nc)); [|exact Hnc].
    destruct nc as [|c0 nc0]; [exact Hnc|].
    rewrite (app_removelast_last (l := c0 :: nc0) "") in Hnc by discriminate.
    apply Forall_app in Hnc as [Hnc _]. exact Hnc.
  - cbn [negb orb]. apply Forall_app. split; [exact Hnc|].
    apply Forall_cons. split; [|constructor]. split; [|exact Hcomp].
    apply Str_eqb_neq. exact Edd.
Qed.

Lemma normpath_fold_kept (k : nat) (comps nc : list string) :
  k <> 0%nat -> Forall (fun c => Posixpath.has_sep c = false) comps ->
  Forall Posixpath.kept nc ->
  Forall Posixpath.kept (fold_left (Posixpath.normpath_step k) comps nc).
Proof.
  intros Hk. revert nc. induction comps as [|c comps IH]; intros nc Hc Hnc;
    [exact Hnc|].
  apply Forall_cons in Hc as [Hc Hcs]. cbn [fold_left].
  apply IH; [exact Hcs|]. apply normpath_step_kept; assumption.
Qed.

(** No component of a normalised absolute path is [..]. *)
Lemma normpath_absolute_no_dotdot (url : string) :
  Str.startswith url "/" = true ->
  ".." ∉ Str.split "/" (Posixpath.normpath url).
Proof.
  intros Habs. unfold Posixpath.normpath.
  destruct (Str.eqb url "") eqn:E0.
  { apply Str_eqb_eq in E0. subst url. discriminate Habs. }
  rewrite Habs.
  set (k := if _ && _ then 2%nat else 1%nat).
  set (nc := fold_left _ _ _).
  assert (Hk : k <> 0%nat) by (unfold k; destruct (_ && _); discriminate).
  assert (Hnc : Forall Posixpath.kept nc).
  { apply normpath_fold_kept; [exact Hk| |constructor].
    apply Forall_forall. intros c Hc. exact (split_has_no_sep _ _ Hc). }
  assert (Hsplit : ".." ∉ Str.split "/" (Str.join "/" nc)).
  { destruct nc as [|c0 nc0] eqn:En.
    - simpl. intros Hin. apply list_elem_of_singleton in Hin. discriminate Hin.
    - rewrite split_join; [|discriminate|].
      + intros Hin. rewrite Forall_forall in Hnc.
        destruct (Hnc _ Hin) as [Hne _]. apply Hne. reflexivity.
      + eapply Forall_impl; [exact Hnc|]. intros c [_ Hc]. exact Hc. }
  assert (Hk12 : k = 1%nat \/ k = 2%nat)
    by (unfold k; destruct (_ && _); auto).
  destruct Hk12 as [-> | ->]; cbn [Str.repeat String.append Str.eqb String.eqb];
    cbn [Str.split Ascii.eqb Bool.eqb]; intros Hin.
  - apply elem_of_cons in Hin as [Hin|Hin]; [discriminate Hin|].
    exact (Hsplit Hin).
  - apply elem_of_cons in Hin as [Hin|Hin]; [discriminate Hin|].
    apply elem_of_cons in Hin as [Hin|Hin]; [discriminate Hin|].
    exact (Hsplit Hin).
Qed.

(** X1.  An absolute url with a [..] segment resolves to nothing, and no
    candidate path is probed for it. *)
Theorem find_file_rejects_dotdot `{Platform} (w : WhiteNoise) (url : string) :
  Str.startswith url "/" = true ->
  ".." ∈ Str.split "/" url ->
  find_file_probed w url = ([], Ok None).
Proof.
  intros Habs Hdd. unfold find_file_probed.
  destruct (negb (Str.truthy (Some url)) || Posixpath.endswith_sep url);
    [reflexivity|].
  destruct (Str.eqb (Posixpath.normpath url) url) eqn:E; [|reflexivity].
  apply Str_eqb_eq in E. exfalso.
  apply (normpath_absolute_no_dotdot url Habs). rewrite E. exact Hdd.
Qed.

Lemma find_file_rejects_dotdot_witness :
  find_file_probed (dynamic_site WhiteNoiseClass) "/subdir/../../etc/passwd"
  = ([], Ok None).
Proof.
  apply (find_file_rejects_dotdot (dynamic_site WhiteNoiseClass)
           "/subdir/../../etc/passwd").
  - reflexivity.
  - apply list_elem_of_In. vm_compute. right. right. left. reflexivity.
Defined.

(** C10.  For a url that passes the guards of [find_file]:
    - when the mounts tried before some mount all came out missing and
      [get_static_file] raises there an exception that is not a
      [MissingFileError], [find_file] raises that exception;
    - when every mount whose prefix matches comes out missing, [find_file]
      returns [None];
    - in the hashed class, an error raised by reading the file for its
      digest is what [get_static_file] raises. *)
Theorem find_file_missing_only `{Platform} (w : WhiteNoise) (url : string) :
  url <> "" -> Posixpath.endswith_sep url = false ->
  Posixpath.normpath url = url ->
  (forall (ds1 ds2 : list (string * string)) (root prefix : string) (x : exn),
      directories w = (ds1 ++ (root, prefix) :: ds2)%list ->
      (forall m, m ∈ ds1 -> missing_at w url m) ->
      Str.startswith url prefix = true ->
      get_static_file w
        (Posixpath.join root (Str.drop (String.length prefix) url)) url
      = Raise x ->
      is_MissingFileError x = false ->
      find_file w url = Raise x) /\
  ((forall m, m ∈ directories w -> missing_at w url m) ->
   find_file w url = Ok None) /\
  (forall (path : string) (st : file_stat) (x : exn),
      cls w = HashedEtagWhiteNoiseClass ->
      stat_regular_file path = Ok st ->
      read_file path = Raise x ->
      get_static_file w path url = Raise x).
Proof.
  intros Hne Hsep Hnorm.
  rewrite (find_file_guards_passed w url Hne Hsep Hnorm).
  split; [|split].
  - intros ds1 ds2 root prefix x Hd Hmiss Hp Hx Hmx.
    rewrite Hd, find_in_skip by exact Hmiss.
    cbn [find_in]. rewrite Hp, Hx, Hmx. reflexivity.
  - apply find_in_all_missing.
  - intros path st x. apply hashed_read_error.
Qed.

Lemma find_file_missing_only_witness :
  find_file (dynamic_site HashedEtagWhiteNoiseClass) "/secret.js"
  = Raise PermissionError /\
  find_file (dynamic_site HashedEtagWhiteNoiseClass) "/nothing.js" = Ok None.
Proof.
  split.
  - destruct (find_file_missing_only
                (dynamic_site HashedEtagWhiteNoiseClass) "/secret.js")
      as (Hraise & _ & Hread); [discriminate|reflexivity|reflexivity|].
    apply (Hraise [] [] "/srv/static" "/" PermissionError).
    + reflexivity.
    + intros m Hm. inversion Hm.
    + reflexivity.
    + apply (Hread "/srv/static/secret.js"
               {| st_mtime := 1500000000; st_size := 4 |});
        reflexivity.
    + reflexivity.
  - destruct (find_file_missing_only
                (dynamic_site HashedEtagWhiteNoiseClass) "/nothing.js")
      as (_ & Hnone & _); [discriminate|reflexivity|reflexivity|].
    apply Hnone. intros m Hm. apply list_elem_of_singleton in Hm. subst m.
    intros _. exists MissingFileError. split; reflexivity.
Defined.

(** ** Registration *)

Section Registration.

Context `{P : Platform}.

Lemma update_filenames_paths (root prefix directory : string)
    (filenames : list string) (w : WhiteNoise) :
  update_filenames w root prefix directory filenames
  = update_paths w root prefix (map (Posixpath.join directory) filenames).
Proof.
  revert w. induction filenames as [|fn fns IH]; intros w; [reflexivity|].
  cbn [update_filenames map update_paths].
  destruct (get_static_file w _ _); [apply IH|reflexivity].
Qed.

Lemma update_paths_app (root prefix : string) (l1 l2 : list string)
    (w : WhiteNoise) :
  update_paths w root prefix (l1 ++ l2)
  = match update_paths w root prefix l1 with
    | (w', Ok _) => update_paths w' root prefix l2
    | (w', Raise x) => (w', Raise x)
    end.
Proof.
  revert w. induction l1 as [|p l1 IH]; intros w; [reflexivity|].
  cbn [app update_paths].
  destruct (get_static_file w _ _); [apply IH|reflexivity].
Qed.

Lemma update_walked_paths (root prefix : string)
    (walked : list (string * list string * list string)) (w : WhiteNoise) :
  update_walked w root prefix walked
  = update_paths w root prefix (walked_paths walked).
Proof.
  revert w. induction walked as [|[[d sub] fns] walked IH]; intros w;
    [reflexivity|].
  cbn [update_walked walked_paths flat_map].
  rewrite update_paths_app, update_filenames_paths.
  destruct (update_paths w root prefix _) as [w' [[]|x]];
    [apply IH|reflexivity].
Qed.

Lemma set_files_id (w : WhiteNoise) : w = set_files w (files w).
Proof. destruct w; reflexivity. Qed.

Lemma built_by_weaken (w : WhiteNoise) (root prefix p : string)
    (paths : list string) (url : string) (e : Entry) :
  built_by w root prefix paths url e ->
  built_by w root prefix (p :: paths) url e.
Proof.
  intros (path & Hin & Hu & Hg). exists path.
  split; [right; exact Hin|]. split; assumption.
Qed.

(** What the loop leaves behind: only the mapping changes; an entry of the
    mapping is either the one it was or one the loop built for that url;
    and when the loop runs to its end every url it met holds an entry the
    loop built for it. *)
Lemma update_paths_inv (root prefix : string) (paths : list string) :
  forall (w w' : WhiteNoise) (r : result unit),
    update_paths w root prefix paths = (w', r) ->
    (exists f, w' = set_files w f) /\
    (forall url,
        files w' !! url = files w !! url \/
        exists e, built_by w root prefix paths url e /\
                  files w' !! url = Some e) /\
    (r = Ok tt ->
     forall path, path ∈ paths ->
       exists e, built_by w root prefix paths (url_of root prefix path) e /\
                 files w' !! url_of root prefix path = Some e).
Proof.
  induction paths as [|p paths IH]; intros w w' r Hrun.
  - injection Hrun as <- <-. split; [exists (files w); apply set_files_id|].
    split; [intros url; left; reflexivity|].
    intros _ path Hin. inversion Hin.
  - cbn [update_paths] in Hrun.
    destruct (get_static_file w p (url_of root prefix p)) as [e|x] eqn:Hg.
    + apply IH in Hrun as ((f & ->) & Horigin & Hcover).
      assert (Horigin' : forall url,
                 files (set_files w f) !! url = files w !! url \/
                 exists e0, built_by w root prefix (p :: paths) url e0 /\
                            files (set_files w f) !! url = Some e0).
      { intros url. destruct (Horigin url) as [Hsame | (e0 & Hb & Hl)].
        - cbn [files set_files] in Hsame.
          destruct (decide (url_of root prefix p = url)) as [<-|Hne].
          + rewrite lookup_insert_eq in Hsame. right. exists e.
            split; [|exact Hsame]. exists p.
            split; [left|]. split; [reflexivity|exact Hg].
          + rewrite lookup_insert_ne in Hsame by exact Hne.
            left. exact Hsame.
        - right. exists e0. split; [|exact Hl].
          apply built_by_weaken. exact Hb. }
      split; [exists f; reflexivity|]. split; [exact Horigin'|].
      intros Hr path Hin. apply elem_of_cons in Hin as [->|Hin].
      * destruct (Horigin (url_of root prefix p)) as [Hsame | (e0 & Hb & Hl)].
        -- cbn [files set_files] in Hsame.
           rewrite lookup_insert_eq in Hsame. exists e.
           split; [|exact Hsame]. exists p.
           split; [left|]. split; [reflexivity|exact Hg].
        -- exists e0. split; [|exact Hl]. apply built_by_weaken. exact Hb.
      * destruct (Hcover Hr path Hin) as (e0 & Hb & Hl).
        exists e0. split; [|exact Hl]. apply built_by_weaken. exact Hb.
    + injection Hrun as <- <-.
      split; [exists (files w); apply set_files_id|].
      split; [intros url; left; reflexivity|]. discriminate.
Qed.

End Registration.

(** C5.  The mount registered last wins.
    - With [autorefresh] on, two calls of [add_files] leave the second
      mount at the head of [directories], before the first; a url under
      the second mount's prefix for which that mount builds an entry
      resolves to that entry, whatever the first mount holds.
    - [find_file] returns the first entry built along [directories]: the
      mounts before it either do not carry the url's prefix or come out
      missing.
    - With [autorefresh] off, after two calls of [add_files] that both
      complete, every url of a file of the second mount maps to an entry
      [get_static_file] built from a file of the second mount. *)
Theorem later_mount_wins `{Platform} (w : WhiteNoise) (r1 r2 : string)
    (p1 p2 : option string) :
  (autorefresh w = true ->
   let w2 := (add_files (add_files w r1 p1).1 r2 p2).1 in
   directories w2
   = (r2, ensure_leading_trailing_slash p2)
       :: (r1, ensure_leading_trailing_slash p1) :: directories w /\
   forall (url : string) (e : Entry),
     url <> "" -> Posixpath.endswith_sep url = false ->
     Posixpath.normpath url = url ->
     Str.startswith url (ensure_leading_trailing_slash p2) = true ->
     get_static_file w
       (Posixpath.join r2
          (Str.drop (String.length (ensure_leading_trailing_slash p2)) url))
       url = Ok e ->
     find_file w2 url = Ok (Some e)) /\
  (forall (ds1 ds2 : list (string * string)) (root prefix url : string)
          (e : Entry),
      url <> "" -> Posixpath.endswith_sep url = false ->
      Posixpath.normpath url = url ->
      directories w = (ds1 ++ (root, prefix) :: ds2)%list ->
      (forall m, m ∈ ds1 -> missing_at w url m) ->
      Str.startswith url prefix = true ->
      get_static_file w
        (Posixpath.join root (Str.drop (String.length prefix) url)) url
      = Ok e ->
      find_file w url = Ok (Some e)) /\
  (autorefresh w = false ->
   forall w1 w2 : WhiteNoise,
     add_files w r1 p1 = (w1, Ok tt) ->
     add_files w1 r2 p2 = (w2, Ok tt) ->
     forall path : string,
       path ∈ walked_paths (walk r2) ->
       exists e,
         built_by w r2 (ensure_leading_trailing_slash p2)
           (walked_paths (walk r2))
           (url_of r2 (ensure_leading_trailing_slash p2) path) e /\
         files w2 !! url_of r2 (ensure_leading_trailing_slash p2) path
         = Some e).
Proof.
  split; [|split].
  - intros Hauto. unfold add_files. rewrite Hauto. cbn [fst].
    change (autorefresh (set_directories w _)) with (autorefresh w).
    rewrite Hauto. cbn [fst]. split; [reflexivity|].
    intros url e Hne Hsep Hnorm Hp Hg.
    rewrite (find_file_guards_passed _ url Hne Hsep Hnorm).
    cbn [directories set_directories find_in]. rewrite Hp.
    change (get_static_file (set_directories _ _)) with (get_static_file w).
    rewrite Hg. reflexivity.
  - intros ds1 ds2 root prefix url e Hne Hsep Hnorm Hd Hmiss Hp Hg.
    rewrite (find_file_guards_passed w url Hne Hsep Hnorm).
    rewrite Hd, find_in_skip by exact Hmiss.
    cbn [find_in]. rewrite Hp, Hg. reflexivity.
  - intros Hauto w1 w2 H1 H2 path Hin. unfold add_files in H1, H2.
    rewrite Hauto in H1. unfold update_files_dictionary in H1.
    rewrite update_walked_paths in H1.
    apply update_paths_inv in H1 as ((f & ->) & _ & _).
    change (autorefresh (set_files w f)) with (autorefresh w) in H2.
    rewrite Hauto in H2. unfold update_files_dictionary in H2.
    rewrite update_walked_paths in H2.
    apply update_paths_inv in H2 as (_ & _ & Hcover).
    exact (Hcover eq_refl path Hin).
Qed.

(** [/srv/static] then [/srv/theme], both at [/] and both with an
    [app.js]: [/app.js] is the theme's file, in either mode. *)
Lemma later_mount_wins_witness :
  find_file
    (add_files (add_files (new_instance WhiteNoiseClass true)
                  "/srv/static" None).1 "/srv/theme" None).1 "/app.js"
  = Ok (Some theme_entry) /\
  files (add_files (add_files (new_instance WhiteNoiseClass false)
                      "/srv/static" None).1 "/srv/theme" None).1
    !! "/app.js" = Some theme_entry.
Proof.
  split.
  - destruct (later_mount_wins (new_instance WhiteNoiseClass true)
                "/srv/static" "/srv/theme" None None) as (Hdyn & _ & _).
    destruct (Hdyn eq_refl) as [_ Hfind].
    apply Hfind; first [discriminate | reflexivity].
  - destruct (later_mount_wins (new_instance WhiteNoiseClass false)
                "/srv/static" "/srv/theme" None None) as (_ & _ & Hstat).
    assert (H1 : add_files (new_instance WhiteNoiseClass false)
                   "/srv/static" None
                 = ((add_files (new_instance WhiteNoiseClass false)
                       "/srv/static" None).1, Ok tt))
      by (vm_compute; reflexivity).
    assert (H2 : add_files (add_files (new_instance WhiteNoiseClass false)
                              "/srv/static" None).1 "/srv/theme" None
                 = ((add_files (add_files (new_instance WhiteNoiseClass false)
                                  "/srv/static" None).1 "/srv/theme" None).1,
                    Ok tt))
      by (vm_compute; reflexivity).
    destruct (Hstat eq_refl _ _ H1 H2 "/srv/theme/app.js")
      as (e & (path & Hin & _ & Hg) & Hl); [left|].
    apply list_elem_of_singleton in Hin. subst path.
    injection Hg as <-. exact Hl.
Defined.

(** ** Header computation *)

Lemma getitem_app_miss (h1 h2 : Headers) (name : string) :
  Hdr.getitem h1 name = None ->
  Hdr.getitem (h1 ++ h2)%list name = Hdr.getitem h2 name.
Proof.
  induction h1 as [|[k v] h1 IH]; simpl; [reflexivity|].
  destruct (Str.eqb (Str.lower k) (Str.lower name)); [discriminate|exact IH].
Qed.

Lemma getitem_app_hit (h1 h2 : Headers) (name v : string) :
  Hdr.getitem h1 name = Some v ->
  Hdr.getitem (h1 ++ h2)%list name = Some v.
Proof.
  induction h1 as [|[k v'] h1 IH]; simpl; [discriminate|].
  destruct (Str.eqb (Str.lower k) (Str.lower name)); [trivial|exact IH].
Qed.

Lemma getitem_delitem_same (h : Headers) (name : string) :
  Hdr.getitem (Hdr.delitem h name) name = None.
Proof.
  unfold Hdr.delitem. induction h as [|[k v] h IH]; simpl; [reflexivity|].
  destruct (Str.eqb (Str.lower k) (Str.lower name)) eqn:E; simpl;
    [exact IH|]. rewrite E. exact IH.
Qed.

Lemma getitem_delitem_other (h : Headers) (name other : string) :
  Str.lower name <> Str.lower other ->
  Hdr.getitem (Hdr.delitem h name) other = Hdr.getitem h other.
Proof.
  intros Hne. unfold Hdr.delitem.
  induction h as [|[k v] h IH]; simpl; [reflexivity|].
  destruct (Str.eqb (Str.lower k) (Str.lower name)) eqn:E; simpl.
  - apply Str_eqb_eq in E.
    destruct (Str.eqb (Str.lower k) (Str.lower other)) eqn:E'; [|exact IH].
    apply Str_eqb_eq in E'. congruence.
  - rewrite IH. reflexivity.
Qed.

(** [headers[name] = v] then [headers[name]] *)
Lemma getitem_setitem_same (h : Headers) (name v : string) :
  Hdr.getitem (Hdr.setitem h name v) name = Some v.
Proof.
  unfold Hdr.setitem.
  rewrite getitem_app_miss by apply getitem_delitem_same.
  simpl. rewrite (proj2 (Str_eqb_eq _ _) eq_refl). reflexivity.
Qed.

(** [headers[name] = v] leaves the other names as they were. *)
Lemma getitem_setitem_other (h : Headers) (name other v : string) :
  Str.lower name <> Str.lower other ->
  Hdr.getitem (Hdr.setitem h name v) other = Hdr.getitem h other.
Proof.
  intros Hne. unfold Hdr.setitem.
  destruct (Hdr.getitem h other) as [v'|] eqn:E.
  - apply getitem_app_hit. rewrite getitem_delitem_other; assumption.
  - rewrite getitem_app_miss by (rewrite getitem_delitem_other; assumption).
    simpl. apply Str_eqb_neq in Hne. rewrite Hne. reflexivity.
Qed.

Lemma add_cache_headers_eq `{Platform} (w : WhiteNoise) (h : Headers)
    (path url : string) :
  add_cache_headers w h path url
  = match cache_control w path url with
    | Some v => Hdr.setitem h "Cache-Control" v
    | None => h
    end.
Proof.
  unfold add_cache_headers, cache_control.
  destruct (is_immutable_file w path url); [reflexivity|].
  destruct (max_age w); reflexivity.
Qed.

(** C7.  The default immutability predicate is false for every file.
    [add_cache_headers] sets [Cache-Control] to ten years with
    [public, immutable] for an immutable file; else to
    [max-age=<n>, public] when [max_age] is [n]; else it leaves the headers
    as they are.  So in the header set [get_static_file] has computed once
    its built-in steps are through, [Cache-Control] holds the first, the
    second, or is absent. *)
Theorem cache_control_header `{Platform} (w : WhiteNoise) (h : Headers)
    (path url : string) :
  default_is_immutable_file path url = false /\
  add_cache_headers w h path url
  = (if is_immutable_file w path url
     then Hdr.setitem h "Cache-Control" "max-age=315360000, public, immutable"
     else match max_age w with
          | Some n =>
              Hdr.setitem h "Cache-Control"
                ("max-age=" +:+ Str.of_Z n +:+ ", public")
          | None => h
          end) /\
  match add_stat_headers Hdr.empty path url with
  | Ok h1 =>
      Hdr.getitem
        (add_cors_headers w
           (add_cache_headers w (add_mime_headers w h1 path url) path url)
           path url)
        "Cache-Control"
      = (if is_immutable_file w path url
         then Some "max-age=315360000, public, immutable"
         else match max_age w with
              | Some n => Some ("max-age=" +:+ Str.of_Z n +:+ ", public")
              | None => None
              end)
  | Raise _ => True
  end.
Proof.
  split; [reflexivity|]. split.
  - rewrite add_cache_headers_eq. unfold cache_control.
    destruct (is_immutable_file w path url); [reflexivity|].
    destruct (max_age w); reflexivity.
  - unfold add_stat_headers.
    destruct (stat_regular_file path) as [st|x]; [|exact I].
    cbn [mbind result_bind].
    assert (Hcors : forall h0,
               Hdr.getitem (add_cors_headers w h0 path url) "Cache-Control"
               = Hdr.getitem h0 "Cache-Control").
    { intros h0. unfold add_cors_headers.
      destruct (allow_all_origins w); [|reflexivity].
      apply getitem_setitem_other. discriminate. }
    rewrite Hcors, add_cache_headers_eq.
    fold (cache_control w path url).
    destruct (cache_control w path url) as [v|].
    + apply getitem_setitem_same.
    + unfold add_mime_headers, Hdr.add_header.
      rewrite getitem_app_miss by reflexivity. reflexivity.
Qed.

(** C1.  [add_etag_headers] never stores an etag.  Once the file is read,
    looking up [update] on the format string raises [AttributeError], where
    the design stores the quoted base64 digest; when the file cannot be read
    the error of the read is raised.  So
    [HashedEtagWhiteNoise.get_static_file] returns an entry for no file. *)
Theorem add_etag_headers_raises `{Platform} (h : Headers) (path url : string) :
  match read_file path with
  | Ok data =>
      add_etag_headers h path url = Raise AttributeError /\
      Design.add_etag_headers h path url
      = Ok (Hdr.setitem h "etag" (quoted (b64encode (md5 data))))
  | Raise x => add_etag_headers h path url = Raise x
  end /\
  forall (w : WhiteNoise) (e : Entry),
    HashedEtagWhiteNoise_get_static_file w path url <> Ok e.
Proof.
  assert (E : forall h0, exists x, add_etag_headers h0 path url = Raise x).
  { intros h0. unfold add_etag_headers.
    destruct (read_file path) as [data|x]; eexists; reflexivity. }
  split.
  - unfold add_etag_headers, Design.add_etag_headers.
    destruct (read_file path) as [data|x]; [split|]; reflexivity.
  - intros w e. unfold HashedEtagWhiteNoise_get_static_file.
    destruct (add_stat_headers Hdr.empty path url) as [h1|x];
      [|discriminate].
    cbn [mbind result_bind].
    destruct (E (add_cors_headers w
                   (add_cache_headers w (add_mime_headers w h1 path url)
                      path url) path url)) as [x ->].
    discriminate.
Qed.

(** ** Dispatch *)

(** C8.  When the request's path has no entry (the mapping has none with
    [autorefresh] off, [find_file] returns [None] with it on), [__call__]
    returns what the wrapped application returns for the very same
    environment: its status line, headers and body. *)
Theorem call_passes_through `{Platform} (w : WhiteNoise) (environ : Environ)
    (path_info : string) :
  environ !! "PATH_INFO" = Some path_info ->
  (autorefresh w = false /\ files w !! decode_path_info path_info = None) \/
  (autorefresh w = true /\
   find_file w (decode_path_info path_info) = Ok None) ->
  __call__ w environ = application w environ.
Proof.
  intros Hp Hmiss. unfold __call__, environ_getitem. rewrite Hp.
  cbn [mbind result_bind].
  destruct Hmiss as [[-> ->] | [-> ->]]; reflexivity.
Qed.

Lemma call_passes_through_witness :
  __call__ static_site get_not_static = Sample.hello get_not_static /\
  __call__ (dynamic_site WhiteNoiseClass) get_not_static
  = Sample.hello get_not_static.
Proof.
  split.
  - apply (call_passes_through static_site get_not_static "/not/static").
    + reflexivity.
    + left. split; [reflexivity | vm_compute; reflexivity].
  - apply (call_passes_through (dynamic_site WhiteNoiseClass) get_not_static
             "/not/static").
    + reflexivity.
    + right. split; reflexivity.
Defined.

(* ===================================================================== *)
(** * Further properties of the conditional evaluator *)
(* ===================================================================== *)

(** ** More on strings *)

Lemma split_app_sep (sep : ascii) (s1 s2 : string) :
  Str.split sep (s1 +:+ String sep s2)
  = (Str.split sep s1 ++ Str.split sep s2)%list.
Proof.
  induction s1 as [|a r IH]; simpl.
  - rewrite Ascii.eqb_refl. reflexivity.
  - destruct (Ascii.eqb a sep); [rewrite IH; reflexivity|].
    rewrite IH. destruct (Str.split sep r) as [|h t] eqn:E; [|reflexivity].
    exfalso. exact (split_not_nil _ _ E).
Qed.

Lemma split_without_sep (sep : ascii) (s : string) :
  Str.contains sep s = false -> Str.split sep s = [s].
Proof.
  induction s as [|a r IH]; simpl; [reflexivity|]. intros Hs.
  apply orb_false_iff in Hs as [Ea Hr]. rewrite Ea, (IH Hr). reflexivity.
Qed.

Lemma split_tokens_without_sep (sep : ascii) (s t : string) :
  t ∈ Str.split sep s -> Str.contains sep t = false.
Proof.
  revert t. induction s as [|a r IH]; intros t Ht; simpl in Ht.
  - apply list_elem_of_singleton in Ht. subst t. reflexivity.
  - destruct (Ascii.eqb a sep) eqn:Ea.
    + apply elem_of_cons in Ht as [->|Ht]; [reflexivity|apply IH, Ht].
    + destruct (Str.split sep r) as [|h tl] eqn:Er.
      * apply list_elem_of_singleton in Ht. subst t. simpl. rewrite Ea.
        reflexivity.
      * apply elem_of_cons in Ht as [->|Ht].
        -- simpl. rewrite Ea. apply IH. left.
        -- apply IH. right. exact Ht.
Qed.

Lemma lstrip_contains (c : ascii) (s : string) :
  Str.contains c (Str.lstrip s) = true -> Str.contains c s = true.
Proof.
  induction s as [|a r IH]; simpl; [trivial|].
  destruct (Str.isspace a); [|trivial].
  intros H. rewrite (IH H). apply orb_true_r.
Qed.

Lemma rstrip_contains (c : ascii) (s : string) :
  Str.contains c (Str.rstrip s) = true -> Str.contains c s = true.
Proof.
  induction s as [|a r IH]; simpl; [trivial|].
  destruct (Str.rstrip r) as [|b r'] eqn:E.
  - destruct (Str.isspace a); simpl; [discriminate|].
    rewrite orb_false_r. intros ->. reflexivity.
  - cbn [Str.contains]. intros H. apply orb_true_iff in H as [H|H].
    + rewrite H. reflexivity.
    + rewrite IH; [apply orb_true_r|exact H].
Qed.

Lemma strip_contains (c : ascii) (s : string) :
  Str.contains c (Str.strip s) = true -> Str.contains c s = true.
Proof.
  intros H. apply lstrip_contains, rstrip_contains, H.
Qed.

Lemma rstrip_idem (s : string) : Str.rstrip (Str.rstrip s) = Str.rstrip s.
Proof.
  induction s as [|a r IH]; [reflexivity|]. cbn [Str.rstrip].
  destruct (Str.rstrip r) as [|b r'] eqn:E.
  - destruct (Str.isspace a) eqn:Ea; [reflexivity|].
    simpl. rewrite Ea. reflexivity.
  - cbn [Str.rstrip] in IH |- *. rewrite IH. reflexivity.
Qed.

Lemma lstrip_head (s : string) :
  Str.lstrip s = "" \/
  exists a r, Str.lstrip s = String a r /\ Str.isspace a = false.
Proof.
  induction s as [|a r IH]; simpl; [left; reflexivity|].
  destruct (Str.isspace a) eqn:Ea; [exact IH|]. right. eauto.
Qed.

(** Stripping what is stripped changes nothing. *)
Lemma strip_idem (s : string) : Str.strip (Str.strip s) = Str.strip s.
Proof.
  unfold Str.strip. destruct (lstrip_head s) as [-> | (a & r & -> & Ha)];
    [reflexivity|].
  rewrite rstrip_cons_nonspace by exact Ha. cbn [Str.lstrip]. rewrite Ha.
  rewrite <- (rstrip_cons_nonspace a r Ha). apply rstrip_idem.
Qed.

(** ** If-None-Match, continued *)

(** X2.  A client that sends back the entry's etag, bare or behind the
    weak prefix, is answered NOT_MODIFIED, for an etag that is not empty,
    carries no comma and no whitespace at its ends. *)
Theorem if_none_match_echo (e : string) :
  e <> "" -> Str.strip e = e -> Str.contains "," e = false ->
  _if_none_match_etag (Some e) ("W/" +:+ e) = true /\
  (Str.startswith e "W/" = false -> _if_none_match_etag (Some e) e = true).
Proof.
  intros He Hstrip Hcomma. split.
  - apply if_none_match_etag_true. split; [exact He|]. split; [discriminate|].
    exists e. split; [|exact Hstrip].
    change (Design.drop_weak ("W/" +:+ e)) with e.
    rewrite split_without_sep by exact Hcomma. left.
  - intros Hw. apply if_none_match_etag_true.
    split; [exact He|]. split; [exact He|].
    exists e. split; [|exact Hstrip].
    unfold Design.drop_weak. rewrite Hw.
    rewrite split_without_sep by exact Hcomma. left.
Qed.

Lemma if_none_match_echo_witness :
  _if_none_match_etag (Some abc_etag) ("W/" +:+ abc_etag) = true /\
  (Str.startswith abc_etag "W/" = false ->
   _if_none_match_etag (Some abc_etag) abc_etag = true).
Proof.
  apply (if_none_match_echo abc_etag); [discriminate|reflexivity..].
Defined.

(** X3.  An etag that holds a comma, or whitespace at one of its ends, is
    matched by no If-None-Match value at all: the tokens compared have no
    comma and are stripped. *)
Theorem if_none_match_unmatchable (e h : string) :
  Str.contains "," e = true \/ Str.strip e <> e ->
  _if_none_match_etag (Some e) h = false.
Proof.
  intros Hbad. apply not_true_is_false. intros Hm.
  apply if_none_match_etag_true in Hm as (_ & _ & t & Ht & E).
  destruct Hbad as [Hc | Hs].
  - apply split_tokens_without_sep in Ht.
    rewrite <- E in Hc. apply strip_contains in Hc. congruence.
  - apply Hs. rewrite <- E. apply strip_idem.
Qed.

Lemma if_none_match_unmatchable_witness :
  _if_none_match_etag (Some (quoted "a,b")) (quoted "a,b") = false /\
  _if_none_match_etag (Some " abc") " abc" = false.
Proof.
  split.
  - apply (if_none_match_unmatchable (quoted "a,b")). left. reflexivity.
  - apply (if_none_match_unmatchable " abc"). right. discriminate.
Defined.

Lemma no_weak_after_append (h x : string) :
  h <> "" -> Str.startswith h "W/" = false ->
  Str.startswith (h +:+ String "," x) "W/" = false.
Proof.
  intros Hh Hw. destruct h as [|a [|b r]]; [congruence| |exact Hw].
  simpl. destruct (Ascii.eqb a "W"); reflexivity.
Qed.

(** X4.  Tags appended to an If-None-Match value that matches leave it
    matching. *)
Theorem if_none_match_append (e : option string) (h more : string) :
  _if_none_match_etag e h = true ->
  _if_none_match_etag e (h +:+ "," +:+ more) = true.
Proof.
  destruct e as [e|]; [|discriminate].
  intros Hm. apply if_none_match_etag_true in Hm as (He & Hh & t & Ht & E).
  apply if_none_match_etag_true. split; [exact He|]. split.
  { destruct h; [congruence|discriminate]. }
  exists t. split; [|exact E].
  assert (Hd : Design.drop_weak (h +:+ "," +:+ more)
               = Design.drop_weak h +:+ String "," more).
  { unfold Design.drop_weak.
    destruct (Str.startswith h "W/") eqn:Hw.
    - apply startswith_weak in Hw as [r ->]. reflexivity.
    - change ("," +:+ more) with (String "," more).
      rewrite no_weak_after_append by assumption. reflexivity. }
  rewrite Hd, split_app_sep. apply elem_of_app. left. exact Ht.
Qed.

Lemma if_none_match_append_witness :
  _if_none_match_etag (Some abc_etag) (abc_etag +:+ "," +:+ "what,") = true.
Proof.
  apply (if_none_match_append (Some abc_etag) abc_etag "what,").
  reflexivity.
Defined.

(** ** If-Modified-Since, continued *)

Lemma tuple_ge_refl (t : list Z) : tuple_ge t t = true.
Proof.
  induction t as [|x t IH]; [reflexivity|]. simpl.
  rewrite Z.eqb_refl. exact IH.
Qed.

Lemma tuple_ge_trans (a b c : list Z) :
  tuple_ge a b = true -> tuple_ge b c = true -> tuple_ge a c = true.
Proof.
  revert b c. induction a as [|x a IH]; intros [|y b] [|z c]; simpl;
    try congruence.
  destruct (Z.eqb_spec x y) as [->|Hxy].
  - destruct (Z.eqb_spec y z); [apply IH|trivial].
  - intros Hyx. destruct (Z.eqb_spec y z) as [->|Hyz].
    + intros _. destruct (Z.eqb_spec x z); [congruence|exact Hyx].
    + intros Hzy. apply Z.ltb_lt in Hyx, Hzy.
      destruct (Z.eqb_spec x z); [lia|]. apply Z.ltb_lt. lia.
Qed.

Lemma tuple_ge_total (a b : list Z) :
  tuple_ge a b = true \/ tuple_ge b a = true.
Proof.
  revert b. induction a as [|x a IH]; intros [|y b]; simpl; auto.
  destruct (Z.eqb_spec x y) as [->|Hxy].
  - rewrite Z.eqb_refl. apply IH.
  - destruct (Z.eqb_spec y x); [congruence|].
    destruct (Z.ltb_spec y x); [left; reflexivity|].
    right. apply Z.ltb_lt. lia.
Qed.

(** X5.  Without If-None-Match, an If-Modified-Since value that parses to
    the entry's own modification time is answered NOT_MODIFIED. *)
Theorem if_modified_since_exact `{Platform} (sf : StaticFile)
    (etag : option string) (req : Environ) (d : string) (t : time_tuple) :
  req !! "HTTP_IF_NONE_MATCH" = None ->
  req !! "HTTP_IF_MODIFIED_SINCE" = Some d ->
  parsedate d = Some t ->
  last_modified sf = Some t ->
  file_not_modified sf etag req = Ok true.
Proof.
  intros Hinm Hims Hd Hm. unfold file_not_modified.
  rewrite Hinm, Hims, Hd, Hm. cbn [py_ge]. rewrite tuple_ge_refl. reflexivity.
Qed.

Lemma if_modified_since_exact_witness :
  file_not_modified entry_2015 None since_2015 = Ok true.
Proof.
  apply (if_modified_since_exact entry_2015 None since_2015
           "Sat, 11 Apr 2015 11:47:06 GMT" [2015; 4; 11; 11; 47; 6; 0; 1; -1]);
    reflexivity.
Defined.

(** X6.  Without If-None-Match the answer is monotone in the client's
    date: when a date is answered NOT_MODIFIED, so is every date that
    parses to a later or equal time. *)
Theorem if_modified_since_monotone `{Platform} (sf : StaticFile)
    (etag1 etag2 : option string) (req1 req2 : Environ) (d1 d2 : string)
    (t1 t2 : time_tuple) :
  req1 !! "HTTP_IF_NONE_MATCH" = None ->
  req2 !! "HTTP_IF_NONE_MATCH" = None ->
  req1 !! "HTTP_IF_MODIFIED_SINCE" = Some d1 ->
  req2 !! "HTTP_IF_MODIFIED_SINCE" = Some d2 ->
  parsedate d1 = Some t1 -> parsedate d2 = Some t2 ->
  tuple_ge t2 t1 = true ->
  file_not_modified sf etag1 req1 = Ok true ->
  file_not_modified sf etag2 req2 = Ok true.
Proof.
  intros Hinm1 Hinm2 Hims1 Hims2 Hd1 Hd2 Hge. unfold file_not_modified.
  rewrite Hinm1, Hinm2, Hims1, Hims2, Hd1, Hd2.
  destruct (last_modified sf) as [m|]; cbn [py_ge]; [|discriminate].
  intros Hm. injection Hm as Hm. f_equal.
  exact (tuple_ge_trans t2 t1 m Hge Hm).
Qed.

Lemma if_modified_since_monotone_witness :
  file_not_modified entry_2015 (Some abc_etag) since_2100 = Ok true.
Proof.
  apply (if_modified_since_monotone entry_2015 None (Some abc_etag)
           since_2015 since_2100
           "Sat, 11 Apr 2015 11:47:06 GMT" "Fri, 11 Apr 2100 11:47:06 GMT"
           [2015; 4; 11; 11; 47; 6; 0; 1; -1]
           [2100; 4; 11; 11; 47; 6; 0; 1; -1]); reflexivity.
Defined.

(* ===================================================================== *)
(** * Further properties of registration *)
(* ===================================================================== *)

Lemma startswith_app (p s : string) : Str.startswith (p +:+ s) p = true.
Proof.
  induction p as [|a p IH]; simpl; [reflexivity|].
  rewrite Ascii.eqb_refl. exact IH.
Qed.


Section MoreRegistration.

Context `{P : Platform}.

Lemma add_files_autorefresh (w : WhiteNoise) (root : string)
    (prefix : option string) :
  autorefresh w = true ->
  add_files w root prefix
  = (set_directories w
       ((root, ensure_leading_trailing_slash prefix) :: directories w),
     Ok tt).
Proof. intros Hauto. unfold add_files. rewrite Hauto. reflexivity. Qed.

Lemma add_all_spec (mounts : list (string * option string)) :
  forall w : WhiteNoise,
    autorefresh w = true ->
    directories (add_all w mounts)
    = (rev (map (fun m => (m.1, ensure_leading_trailing_slash m.2)) mounts)
       ++ directories w)%list /\
    files (add_all w mounts) = files w /\
    autorefresh (add_all w mounts) = true.
Proof.
  induction mounts as [|[root prefix] mounts IH]; intros w Hauto.
  - split; [reflexivity|]. split; [reflexivity|exact Hauto].
  - change (add_all w ((root, prefix) :: mounts))
      with (add_all (add_files w root prefix).1 mounts).
    rewrite (add_files_autorefresh w root prefix Hauto). cbn [fst].
    destruct (IH (set_directories w
                    ((root, ensure_leading_trailing_slash prefix)
                       :: directories w)) Hauto) as (Hd & Hf & Ha).
    rewrite Hd, Hf, Ha. split; [|split; reflexivity].
    cbn [map rev directories set_directories fst snd].
    rewrite <- app_assoc. reflexivity.
Qed.

Lemma update_paths_all_ok (root prefix : string) (paths : list string) :
  forall w : WhiteNoise,
    (forall path, path ∈ paths ->
       exists e, get_static_file w path (url_of root prefix path) = Ok e) ->
    snd (update_paths w root prefix paths) = Ok tt.
Proof.
  induction paths as [|p paths IH]; intros w Hall; [reflexivity|].
  cbn [update_paths]. destruct (Hall p) as [e He]; [left|]. rewrite He.
  apply IH. intros path Hin. apply (Hall path). right. exact Hin.
Qed.

Lemma hashed_get_static_file_raises (w : WhiteNoise) (path url : string) :
  cls w = HashedEtagWhiteNoiseClass ->
  exists x, get_static_file w path url = Raise x.
Proof.
  intros Hc. unfold get_static_file. rewrite Hc.
  unfold HashedEtagWhiteNoise_get_static_file.
  destruct (add_stat_headers Hdr.empty path url) as [h1|x]; [|eauto].
  cbn [mbind result_bind]. unfold add_etag_headers.
  destruct (read_file path) as [data|x]; eexists; reflexivity.
Qed.

End MoreRegistration.

(** X7.  With [autorefresh] on, registering mounts one after the other
    cannot fail and reads nothing from the filesystem: the mapping of files
    stays as it was and [directories] gains the mounts, the last one
    registered first. *)
Theorem add_files_autorefresh_composes `{Platform} (w : WhiteNoise)
    (mounts : list (string * option string)) :
  autorefresh w = true ->
  directories (add_all w mounts)
  = (rev (map (fun m => (m.1, ensure_leading_trailing_slash m.2)) mounts)
     ++ directories w)%list /\
  files (add_all w mounts) = files w /\
  forall (root : string) (prefix : option string),
    snd (add_files (add_all w mounts) root prefix) = Ok tt.
Proof.
  intros Hauto. destruct (add_all_spec mounts w Hauto) as (Hd & Hf & Ha).
  split; [exact Hd|]. split; [exact Hf|].
  intros root prefix. unfold add_files. rewrite Ha. reflexivity.
Qed.

Lemma add_files_autorefresh_composes_witness :
  directories
    (add_all (new_instance WhiteNoiseClass true)
       [("/srv/static", None); ("/srv/theme", Some "theme");
        ("/nowhere", Some "/x/y/")])
  = [("/nowhere", "/x/y/"); ("/srv/theme", "/theme/"); ("/srv/static", "/")].
Proof.
  destruct (add_files_autorefresh_composes (new_instance WhiteNoiseClass true)
              [("/srv/static", None); ("/srv/theme", Some "theme");
               ("/nowhere", Some "/x/y/")] eq_refl) as [Hd _].
  exact Hd.
Defined.

(** X8.  With [autorefresh] off, [add_files] changes nothing but the
    mapping of files, and there only urls that begin with the mount's
    prefix and that it built an entry for; this holds whether the call
    completes or raises. *)
Theorem add_files_static_frame `{Platform} (w w' : WhiteNoise)
    (root : string) (prefix : option string) (r : result unit) :
  autorefresh w = false ->
  add_files w root prefix = (w', r) ->
  w' = set_files w (files w') /\
  forall url : string,
    files w' !! url <> files w !! url ->
    Str.startswith url (ensure_leading_trailing_slash prefix) = true /\
    exists e,
      built_by w root (ensure_leading_trailing_slash prefix)
        (walked_paths (walk root)) url e /\
      files w' !! url = Some e.
Proof.
  intros Hauto Hrun. unfold add_files in Hrun. rewrite Hauto in Hrun.
  unfold update_files_dictionary in Hrun. rewrite update_walked_paths in Hrun.
  apply update_paths_inv in Hrun as ((f & ->) & Horigin & _).
  split; [reflexivity|]. intros url Hne.
  destruct (Horigin url) as [Hsame | (e & Hb & Hl)]; [contradiction|].
  split; [|exists e; split; assumption].
  destruct Hb as (path & _ & <- & _). apply startswith_app.
Qed.

Lemma add_files_static_frame_witness :
  files (add_files static_site "/srv/theme" (Some "theme")).1
    !! "/theme/app.js" <> files static_site !! "/theme/app.js" /\
  Str.startswith "/theme/app.js" "/theme/" = true.
Proof.
  assert (Hne : files (add_files static_site "/srv/theme" (Some "theme")).1
                  !! "/theme/app.js" <> files static_site !! "/theme/app.js")
    by (vm_compute; discriminate).
  destruct (add_files_static_frame static_site
              (add_files static_site "/srv/theme" (Some "theme")).1
              "/srv/theme" (Some "theme")
              (add_files static_site "/srv/theme" (Some "theme")).2
              eq_refl (surjective_pairing _)) as [_ Hframe].
  split; [exact Hne|exact (proj1 (Hframe _ Hne))].
Defined.

(** X9.  With [autorefresh] off, the first file of the walk for which
    [get_static_file] raises ends [add_files] with that exception; the
    files the walk met before it are registered all the same. *)
Theorem add_files_static_failure `{Platform} (w : WhiteNoise)
    (root : string) (prefix : option string) (before after : list string)
    (bad : string) (x : exn) :
  autorefresh w = false ->
  walked_paths (walk root) = (before ++ bad :: after)%list ->
  (forall path, path ∈ before ->
     exists e,
       get_static_file w path
         (url_of root (ensure_leading_trailing_slash prefix) path) = Ok e) ->
  get_static_file w bad
    (url_of root (ensure_leading_trailing_slash prefix) bad) = Raise x ->
  snd (add_files w root prefix) = Raise x /\
  forall path, path ∈ before ->
    exists e,
      built_by w root (ensure_leading_trailing_slash prefix) before
        (url_of root (ensure_leading_trailing_slash prefix) path) e /\
      files (add_files w root prefix).1
        !! url_of root (ensure_leading_trailing_slash prefix) path = Some e.
Proof.
  intros Hauto Hwalk Hok Hbad. unfold add_files. rewrite Hauto.
  unfold update_files_dictionary. rewrite update_walked_paths, Hwalk.
  rewrite update_paths_app.
  set (p := ensure_leading_trailing_slash prefix) in *.
  pose proof (update_paths_all_ok root p before w Hok) as Hsnd.
  destruct (update_paths w root p before) as [w1 r1] eqn:Hrun.
  cbn [snd] in Hsnd. subst r1.
  apply update_paths_inv in Hrun as ((f & ->) & _ & Hcover).
  cbn [update_paths].
  change (get_static_file (set_files w f)) with (get_static_file w).
  rewrite Hbad. cbn [fst snd]. split; [reflexivity|].
  intros path Hin. exact (Hcover eq_refl path Hin).
Qed.

(** X10.  With [autorefresh] off, [HashedEtagWhiteNoise.add_files] over a
    walk that meets at least one file raises and registers nothing. *)
Theorem hashed_add_files_registers_nothing `{Platform} (w : WhiteNoise)
    (root : string) (prefix : option string) :
  cls w = HashedEtagWhiteNoiseClass ->
  autorefresh w = false ->
  walked_paths (walk root) <> [] ->
  exists x, add_files w root prefix = (w, Raise x).
Proof.
  intros Hc Hauto Hwalk. unfold add_files. rewrite Hauto.
  unfold update_files_dictionary. rewrite update_walked_paths.
  destruct (walked_paths (walk root)) as [|p paths]; [congruence|].
  cbn [update_paths].
  destruct (hashed_get_static_file_raises w p
              (url_of root (ensure_leading_trailing_slash prefix) p) Hc)
    as [x ->].
  exists x. reflexivity.
Qed.

Lemma hashed_add_files_registers_nothing_witness :
  exists x,
    add_files (new_instance HashedEtagWhiteNoiseClass false) "/srv/theme" None
    = (new_instance HashedEtagWhiteNoiseClass false, Raise x).
Proof.
  apply (hashed_add_files_registers_nothing
           (new_instance HashedEtagWhiteNoiseClass false) "/srv/theme" None);
    [reflexivity|reflexivity|discriminate].
Defined.

Lemma add_files_static_failure_witness :
  snd (@add_files racy_platform (new_instance WhiteNoiseClass false)
         "/srv/static" None) = Raise MissingFileError /\
  forall path, path ∈ ["/srv/static/app.js"] ->
    exists e,
      @built_by racy_platform (new_instance WhiteNoiseClass false)
        "/srv/static" "/" ["/srv/static/app.js"]
        (@url_of racy_platform "/srv/static" "/" path) e /\
      files (@add_files racy_platform (new_instance WhiteNoiseClass false)
               "/srv/static" None).1
        !! @url_of racy_platform "/srv/static" "/" path = Some e.
Proof.
  apply (@add_files_static_failure racy_platform
           (new_instance WhiteNoiseClass false) "/srv/static" None
           ["/srv/static/app.js"] ["/srv/static/secret.js"]
           "/srv/static/gone.js" MissingFileError).
  - reflexivity.
  - reflexivity.
  - intros path Hin. apply list_elem_of_singleton in Hin. subst path.
    eexists. reflexivity.
  - reflexivity.
Defined.

(* ===================================================================== *)
(** * Further properties of dynamic resolution *)
(* ===================================================================== *)







Section MoreResolution.

Context `{P : Platform}.

Lemma find_in_sound (w : WhiteNoise) (url : string)
    (ds : list (string * string)) :
  (forall path, path ∈ fst (find_in w url ds) ->
     exists root prefix,
       (root, prefix) ∈ ds /\ Str.startswith url prefix = true /\
       path = Posixpath.join root (Str.drop (String.length prefix) url)) /\
  (forall e, snd (find_in w url ds) = Ok (Some e) ->
     exists root prefix,
       (root, prefix) ∈ ds /\ Str.startswith url prefix = true /\
       get_static_file w
         (Posixpath.join root (Str.drop (String.length prefix) url)) url
       = Ok e).
Proof.
  induction ds as [|[root prefix] ds [IHp IHe]]; cbn [find_in].
  - split; [intros path Hin; inversion Hin|discriminate].
  - assert (Hp : forall path,
               path ∈ (find_in w url ds).1 ->
               exists root0 prefix0,
                 (root0, prefix0) ∈ (root, prefix) :: ds /\
                 Str.startswith url prefix0 = true /\
                 path = Posixpath.join root0
                          (Str.drop (String.length prefix0) url)).
    { intros path Hin. destruct (IHp path Hin) as (r0 & p0 & Hm & Hs & Hj).
      exists r0, p0. split; [right; exact Hm|]. split; assumption. }
    assert (He : forall e,
               (find_in w url ds).2 = Ok (Some e) ->
               exists root0 prefix0,
                 (root0, prefix0) ∈ (root, prefix) :: ds /\
                 Str.startswith url prefix0 = true /\
                 get_static_file w
                   (Posixpath.join root0
                      (Str.drop (String.length prefix0) url)) url = Ok e).
    { intros e Hr. destruct (IHe e Hr) as (r0 & p0 & Hm & Hs & Hg).
      exists r0, p0. split; [right; exact Hm|]. split; assumption. }
    destruct (Str.startswith url prefix) eqn:Hpre; [|split; assumption].
    set (path0 := Posixpath.join root (Str.drop (String.length prefix) url)).
    assert (Hhere : exists root0 prefix0,
               (root0, prefix0) ∈ (root, prefix) :: ds /\
               Str.startswith url prefix0 = true /\
               path0 = Posixpath.join root0
                         (Str.drop (String.length prefix0) url)).
    { exists root, prefix. split; [left|]. split; [exact Hpre|reflexivity]. }
    destruct (get_static_file w path0 url) as [e0|x] eqn:Hg.
    + split.
      * intros path Hin. apply list_elem_of_singleton in Hin. subst path.
        exact Hhere.
      * intros e [= <-]. exists root, prefix.
        split; [left|]. split; [exact Hpre|exact Hg].
    + destruct (is_MissingFileError x).
      * destruct (find_in w url ds) as [probed r]. cbn [fst snd] in *. split.
        -- intros path Hin. apply elem_of_cons in Hin as [->|Hin];
             [exact Hhere|exact (Hp path Hin)].
        -- exact He.
      * split.
        -- intros path Hin. apply list_elem_of_singleton in Hin. subst path.
           exact Hhere.
        -- discriminate.
Qed.

Lemma find_file_guards (w : WhiteNoise) (url : string) (e : Entry) :
  find_file w url = Ok (Some e) ->
  url <> "" /\ Posixpath.endswith_sep url = false /\
  Posixpath.normpath url = url.
Proof.
  unfold find_file, find_file_probed.
  destruct (Str.truthy (Some url)) eqn:Ht; cbn [negb orb]; [|discriminate].
  destruct (Posixpath.endswith_sep url); [discriminate|].
  destruct (Str.eqb (Posixpath.normpath url) url) eqn:En; [|discriminate].
  intros _. split; [apply Str_truthy_Some, Ht|].
  split; [reflexivity|apply Str_eqb_eq, En].
Qed.

End MoreResolution.

(** X11.  An entry [find_file] returns was built by [get_static_file] for
    the url and for the path a registered mount gives it, a mount whose
    prefix the url begins with; the url is not empty, does not end in a
    slash and is its own normal form. *)
Theorem find_file_sound `{Platform} (w : WhiteNoise) (url : string)
    (e : Entry) :
  find_file w url = Ok (Some e) ->
  url <> "" /\ Posixpath.endswith_sep url = false /\
  Posixpath.normpath url = url /\
  exists root prefix,
    (root, prefix) ∈ directories w /\ Str.startswith url prefix = true /\
    get_static_file w
      (Posixpath.join root (Str.drop (String.length prefix) url)) url = Ok e.
Proof.
  intros Hfind. destruct (find_file_guards w url e Hfind) as (Hne & Hsep & Hn).
  split; [exact Hne|]. split; [exact Hsep|]. split; [exact Hn|].
  rewrite (find_file_guards_passed w url Hne Hsep Hn) in Hfind.
  exact (proj2 (find_in_sound w url (directories w)) e Hfind).
Qed.

Lemma find_file_sound_witness :
  exists root prefix,
    (root, prefix) ∈ directories (dynamic_site WhiteNoiseClass) /\
    Str.startswith "/app.js" prefix = true /\
    get_static_file (dynamic_site WhiteNoiseClass)
      (Posixpath.join root (Str.drop (String.length prefix) "/app.js"))
      "/app.js"
    = Ok static_entry.
Proof.
  assert (Hf : find_file (dynamic_site WhiteNoiseClass) "/app.js"
               = Ok (Some static_entry)) by (vm_compute; reflexivity).
  destruct (find_file_sound (dynamic_site WhiteNoiseClass) "/app.js"
              static_entry Hf)
    as (_ & _ & _ & root & prefix & Hm & Hs & Hg).
  exists root, prefix. split; [exact Hm|]. split; [exact Hs|exact Hg].
Defined.





(** X14.  With [autorefresh] on, a request whose decoded path is absolute
    and has a [..] segment is handed to the wrapped application, whatever
    the mounts and the filesystem hold. *)
Theorem call_traversal_passes_through `{Platform} (w : WhiteNoise)
    (environ : Environ) (path_info : string) :
  autorefresh w = true ->
  environ !! "PATH_INFO" = Some path_info ->
  Str.startswith (decode_path_info path_info) "/" = true ->
  ".." ∈ Str.split "/" (decode_path_info path_info) ->
  __call__ w environ = application w environ.
Proof.
  intros Hauto Hp Habs Hdd. unfold __call__, environ_getitem.
  rewrite Hp, Hauto. cbn [mbind result_bind].
  assert (E : find_file w (decode_path_info path_info) = Ok None).
  { unfold find_file, find_file_probed.
    destruct (_ || _); [reflexivity|].
    destruct (Str.eqb (Posixpath.normpath (decode_path_info path_info))
                (decode_path_info path_info)) eqn:En; [|reflexivity].
    apply Str_eqb_eq in En. exfalso.
    apply (normpath_absolute_no_dotdot _ Habs). rewrite En. exact Hdd. }
  rewrite E. reflexivity.
Qed.

Lemma call_traversal_passes_through_witness :
  __call__ (dynamic_site WhiteNoiseClass) get_passwd = Sample.hello get_passwd.
Proof.
  apply (call_traversal_passes_through (dynamic_site WhiteNoiseClass)
           get_passwd "/../etc/passwd").
  - reflexivity.
  - reflexivity.
  - reflexivity.
  - apply list_elem_of_In. vm_compute. right. left. reflexivity.
Defined.

(* ===================================================================== *)
(** * Properties of construction, header computation and dispatch *)
(* ===================================================================== *)

Section InitProperties.

Context {V : Type} (decode : V -> V).

Lemma fold_pop_kwargs (l : list string) :
  forall (kw attrs : gmap string V) (k : string),
    (fold_left (pop_config_attr decode) l (kw, attrs)).1 !! k
    = if decide (k ∈ l) then None else kw !! k.
Proof.
  induction l as [|a l IH]; intros kw attrs k.
  - cbn [fold_left fst]. rewrite decide_False by apply not_elem_of_nil.
    reflexivity.
  - cbn [fold_left]. unfold pop_config_attr at 2. cbn [fst snd].
    destruct (kw !! a) as [v|] eqn:Ea; rewrite IH.
    + destruct (decide (k ∈ l)) as [Hin|Hin].
      * rewrite decide_True by (right; exact Hin). reflexivity.
      * destruct (decide (k = a)) as [->|Hne].
        -- rewrite decide_True by left. apply lookup_delete_eq.
        -- rewrite decide_False
             by (intros Hc; apply elem_of_cons in Hc as [?|?]; contradiction).
           apply lookup_delete_ne. congruence.
    + destruct (decide (k ∈ l)) as [Hin|Hin].
      * rewrite decide_True by (right; exact Hin). reflexivity.
      * destruct (decide (k = a)) as [->|Hne].
        -- rewrite decide_True by left. exact Ea.
        -- rewrite decide_False
             by (intros Hc; apply elem_of_cons in Hc as [?|?]; contradiction).
           reflexivity.
Qed.

Lemma fold_pop_attrs (l : list string) :
  forall (kw attrs : gmap string V) (k : string),
    (fold_left (pop_config_attr decode) l (kw, attrs)).2 !! k
    = if decide (k ∈ l)
      then match kw !! k with
           | Some v => Some (decode v)
           | None => attrs !! k
           end
      else attrs !! k.
Proof.
  induction l as [|a l IH]; intros kw attrs k.
  - cbn [fold_left snd]. rewrite decide_False by apply not_elem_of_nil.
    reflexivity.
  - cbn [fold_left]. unfold pop_config_attr at 2. cbn [fst snd].
    destruct (kw !! a) as [v|] eqn:Ea; rewrite IH.
    + destruct (decide (k = a)) as [->|Hne].
      * rewrite lookup_delete_eq, lookup_insert_eq, Ea.
        rewrite (decide_True (P := a ∈ a :: l)) by left.
        destruct (decide (a ∈ l)); reflexivity.
      * rewrite lookup_delete_ne, lookup_insert_ne by congruence.
        destruct (decide (k ∈ l)) as [Hin|Hin].
        -- rewrite decide_True by (right; exact Hin). reflexivity.
        -- rewrite decide_False
             by (intros Hc; apply elem_of_cons in Hc as [?|?]; contradiction).
           reflexivity.
    + destruct (decide (k = a)) as [->|Hne].
      * rewrite Ea. rewrite (decide_True (P := a ∈ a :: l)) by left.
        destruct (decide (a ∈ l)); reflexivity.
      * destruct (decide (k ∈ l)) as [Hin|Hin].
        -- rewrite decide_True by (right; exact Hin). reflexivity.
        -- rewrite decide_False
             by (intros Hc; apply elem_of_cons in Hc as [?|?]; contradiction).
           reflexivity.
Qed.

End InitProperties.

(** X15.  [__init__] accepts keyword arguments exactly when all of them
    are named in [config_attrs]: it then sets each one given, decoded, as
    an attribute and sets no other; a single argument of another name makes
    it raise [TypeError]. *)
Theorem init_config_keywords {V : Type} (decode : V -> V)
    (kwargs : gmap string V) :
  ((forall k, is_Some (kwargs !! k) -> k ∈ config_attrs) ->
   init_config decode kwargs = Ok (decode <$> kwargs)) /\
  ((exists k, is_Some (kwargs !! k) /\ k ∉ config_attrs) ->
   init_config decode kwargs = Raise TypeError).
Proof.
  unfold init_config. split.
  - intros Hall. rewrite decide_True.
    + f_equal. apply map_eq. intros k.
      rewrite fold_pop_attrs, lookup_fmap, lookup_empty.
      destruct (kwargs !! k) as [v|] eqn:Ek.
      * rewrite decide_True by (apply Hall; eauto). reflexivity.
      * destruct (decide _); reflexivity.
    + apply map_eq. intros k. rewrite fold_pop_kwargs, lookup_empty.
      destruct (decide (k ∈ config_attrs)) as [Hin|Hin]; [reflexivity|].
      destruct (kwargs !! k) as [v|] eqn:Ek; [|reflexivity].
      exfalso. apply Hin, Hall. eauto.
  - intros (k & [v Hk] & Hnot). rewrite decide_False; [reflexivity|].
    intros Hempty.
    assert (Hl : (fold_left (pop_config_attr decode) config_attrs
                    (kwargs, ∅)).1 !! k = None)
      by (rewrite Hempty; apply lookup_empty).
    rewrite fold_pop_kwargs, decide_False in Hl by exact Hnot. congruence.
Qed.

Lemma init_config_keywords_witness :
  init_config (fun v : Z => v) {[ "max_age" := 1000; "autorefresh" := 1 ]}
  = Ok ((fun v : Z => v) <$> {[ "max_age" := 1000; "autorefresh" := 1 ]}) /\
  init_config (fun v : Z => v) {[ "max_age" := 1000; "maxage" := 60 ]}
  = Raise TypeError.
Proof.
  split.
  - apply (init_config_keywords (fun v : Z => v)
             {[ "max_age" := 1000; "autorefresh" := 1 ]}).
    intros k [v Hk].
    destruct (decide (k = "max_age")) as [->|H1];
      [apply list_elem_of_In; vm_compute; tauto|].
    destruct (decide (k = "autorefresh")) as [->|H2];
      [apply list_elem_of_In; vm_compute; tauto|].
    rewrite lookup_insert_ne, lookup_singleton_ne in Hk by congruence.
    discriminate Hk.
  - apply (init_config_keywords (fun v : Z => v)
             {[ "max_age" := 1000; "maxage" := 60 ]}).
    exists "maxage". split.
    + exists 60. vm_compute. reflexivity.
    + intros Hin. apply list_elem_of_In in Hin. vm_compute in Hin.
      repeat destruct Hin as [Hin|Hin]; try discriminate Hin. exact Hin.
Defined.

Lemma find_file_no_mounts `{Platform} (w : WhiteNoise) (url : string) :
  directories w = [] -> find_file w url = Ok None.
Proof.
  intros Hd. unfold find_file, find_file_probed. rewrite Hd.
  destruct (_ || _); [reflexivity|]. destruct (negb _); reflexivity.
Qed.

(** X16.  An instance constructed without [root] serves nothing: every
    request that has a [PATH_INFO] gets the wrapped application's answer,
    in either mode. *)
Theorem init_without_root_passes_through `{Platform} (w : WhiteNoise)
    (prefix : option string) (environ : Environ) (path_info : string) :
  environ !! "PATH_INFO" = Some path_info ->
  snd (init_registry w None prefix) = Ok tt /\
  __call__ (init_registry w None prefix).1 environ = application w environ.
Proof.
  intros Hp. split; [reflexivity|].
  unfold __call__, environ_getitem. rewrite Hp. cbn [mbind result_bind].
  cbn [init_registry fst autorefresh set_directories set_files files].
  destruct (autorefresh w).
  - rewrite find_file_no_mounts by reflexivity. reflexivity.
  - rewrite lookup_empty. reflexivity.
Qed.

Lemma init_without_root_passes_through_witness :
  snd (init_registry static_site None None) = Ok tt /\
  __call__ (init_registry static_site None None).1
    {[ "PATH_INFO" := "/app.js"; "REQUEST_METHOD" := "GET" ]}
  = Sample.hello {[ "PATH_INFO" := "/app.js"; "REQUEST_METHOD" := "GET" ]}.
Proof.
  apply (init_without_root_passes_through static_site None
           {[ "PATH_INFO" := "/app.js"; "REQUEST_METHOD" := "GET" ]}
           "/app.js").
  reflexivity.
Defined.

(** X17.  When the path is not a regular file, [get_static_file] of either
    class raises what [stat_regular_file] raises; neither the hook
    [add_extra_headers] nor [add_headers_function] changes that. *)
Theorem get_static_file_stat_failure `{Platform} (w : WhiteNoise)
    (path url : string) (x : exn) :
  stat_regular_file path = Raise x ->
  get_static_file w path url = Raise x.
Proof.
  intros Hst. unfold get_static_file, WhiteNoise_get_static_file,
    HashedEtagWhiteNoise_get_static_file, add_stat_headers.
  rewrite Hst. destruct (cls w); reflexivity.
Qed.

Lemma get_static_file_stat_failure_witness :
  get_static_file (new_instance WhiteNoiseClass false)
    "/srv/static/gone.js" "/gone.js" = Raise MissingFileError /\
  get_static_file (new_instance HashedEtagWhiteNoiseClass true)
    "/srv/static/gone.js" "/gone.js" = Raise MissingFileError.
Proof.
  split.
  - apply (get_static_file_stat_failure (new_instance WhiteNoiseClass false)
             "/srv/static/gone.js" "/gone.js" MissingFileError).
    reflexivity.
  - apply (get_static_file_stat_failure
             (new_instance HashedEtagWhiteNoiseClass true)
             "/srv/static/gone.js" "/gone.js" MissingFileError).
    reflexivity.
Defined.

(** Setting a header whose name the list does not hold appends it. *)
Lemma setitem_fresh (h : Headers) (name v : string) :
  Hdr.getitem h name = None ->
  Hdr.setitem h name v = (h ++ [(name, v)])%list.
Proof.
  intros Hnone. unfold Hdr.setitem. f_equal. unfold Hdr.delitem.
  induction h as [|[k v'] h IH]; [reflexivity|]. simpl in Hnone |- *.
  destruct (Str.eqb (Str.lower k) (Str.lower name)); [discriminate|].
  simpl. rewrite IH by exact Hnone. reflexivity.
Qed.

(** X18.  The header list [WhiteNoise.get_static_file] hands to
    [StaticFile], when no hook is installed: [Last-Modified] from the
    stat's modification time, [Content-Length] as the decimal size,
    [Content-Type], then [Cache-Control] when there is a cache policy and
    [Access-Control-Allow-Origin: *] when all origins are allowed, each
    name once and in this order. *)
Theorem get_static_file_headers `{Platform} (w : WhiteNoise)
    (path url : string) (st : file_stat) :
  cls w = WhiteNoiseClass ->
  add_extra_headers w = default_add_extra_headers ->
  add_headers_function w = None ->
  stat_regular_file path = Ok st ->
  get_static_file w path url
  = (sf ← StaticFile_init path
            ([("Last-Modified", formatdate (st_mtime st));
              ("Content-Length", Str.of_Z (st_size st))]
             ++ add_mime_headers w [] path url
             ++ match cache_control w path url with
                | Some v => [("Cache-Control", v)]
                | None => []
                end
             ++ (if allow_all_origins w
                 then [("Access-Control-Allow-Origin", "*")] else []))%list;
     Ok (PlainFile sf)).
Proof.
  intros Hc Hextra Hfun Hst. unfold get_static_file. rewrite Hc.
  unfold WhiteNoise_get_static_file, add_stat_headers,
    call_add_headers_function.
  rewrite Hst, Hextra, Hfun. cbn [mbind result_bind default_add_extra_headers].
  f_equal. f_equal.
  rewrite add_cache_headers_eq. unfold add_cors_headers.
  unfold add_mime_headers, Hdr.add_header.
  change (Hdr.setitem (Hdr.setitem Hdr.empty "Last-Modified"
                         (formatdate (st_mtime st)))
            "Content-Length" (Str.of_Z (st_size st)))
    with [("Last-Modified", formatdate (st_mtime st));
          ("Content-Length", Str.of_Z (st_size st))].
  set (ct := Str.join "; " _).
  destruct (cache_control w path url) as [v|].
  - rewrite setitem_fresh by reflexivity.
    destruct (allow_all_origins w); [|reflexivity].
    rewrite setitem_fresh by reflexivity. reflexivity.
  - destruct (allow_all_origins w); [|reflexivity].
    rewrite setitem_fresh by reflexivity. reflexivity.
Qed.

Lemma get_static_file_headers_witness :
  get_static_file (new_instance WhiteNoiseClass false)
    "/srv/static/app.js" "/app.js" = Ok static_entry.
Proof.
  rewrite (get_static_file_headers (new_instance WhiteNoiseClass false)
             "/srv/static/app.js" "/app.js"
             {| st_mtime := 1428752826; st_size := 12 |});
    reflexivity.
Defined.

(** X19.  A request environment without [PATH_INFO] makes [__call__] raise
    [KeyError], and so does one without [REQUEST_METHOD] once its path has
    an entry in the mapping; the wrapped application is not called. *)
Theorem call_missing_keys `{Platform} (w : WhiteNoise) (environ : Environ) :
  (environ !! "PATH_INFO" = None -> __call__ w environ = Raise KeyError) /\
  (forall (path_info : string) (e : Entry),
      environ !! "PATH_INFO" = Some path_info ->
      autorefresh w = false ->
      files w !! decode_path_info path_info = Some e ->
      environ !! "REQUEST_METHOD" = None ->
      __call__ w environ = Raise KeyError).
Proof.
  unfold __call__, serve, environ_getitem. split.
  - intros ->. reflexivity.
  - intros path_info e -> -> He ->. cbn [mbind result_bind].
    rewrite He. reflexivity.
Qed.

Lemma call_missing_keys_witness :
  __call__ static_site {[ "REQUEST_METHOD" := "GET" ]} = Raise KeyError /\
  __call__ static_site {[ "PATH_INFO" := "/app.js" ]} = Raise KeyError.
Proof.
  split.
  - apply (call_missing_keys static_site {[ "REQUEST_METHOD" := "GET" ]}).
    reflexivity.
  - apply (proj2 (call_missing_keys static_site {[ "PATH_INFO" := "/app.js" ]})
             "/app.js" static_entry); reflexivity.
Defined.

(** X20.  With [autorefresh] off, once [add_files] has completed, a request
    for the url of any file of its walk is served, by [serve], from an
    entry that [get_static_file] built for that url from a file of the
    mount. *)
Theorem registered_file_is_served `{Platform} (w w' : WhiteNoise)
    (root : string) (prefix : option string) (path path_info : string)
    (environ : Environ) :
  autorefresh w = false ->
  add_files w root prefix = (w', Ok tt) ->
  path ∈ walked_paths (walk root) ->
  environ !! "PATH_INFO" = Some path_info ->
  decode_path_info path_info
  = url_of root (ensure_leading_trailing_slash prefix) path ->
  exists e,
    built_by w root (ensure_leading_trailing_slash prefix)
      (walked_paths (walk root)) (decode_path_info path_info) e /\
    __call__ w' environ = serve w' e environ.
Proof.
  intros Hauto Hrun Hin Hp Hurl. unfold add_files in Hrun.
  rewrite Hauto in Hrun. unfold update_files_dictionary in Hrun.
  rewrite update_walked_paths in Hrun.
  apply update_paths_inv in Hrun as ((f & ->) & _ & Hcover).
  destruct (Hcover eq_refl path Hin) as (e & Hb & Hl).
  exists e. rewrite Hurl. split; [exact Hb|].
  unfold __call__, environ_getitem. rewrite Hp. cbn [mbind result_bind].
  change (autorefresh (set_files w f)) with (autorefresh w).
  rewrite Hauto, Hurl, Hl. reflexivity.
Qed.

Lemma registered_file_is_served_witness :
  exists e,
    built_by (new_instance WhiteNoiseClass false) "/srv/static" "/"
      ["/srv/static/app.js"; "/srv/static/secret.js"] "/app.js" e /\
    __call__ static_site get_app_js = serve static_site e get_app_js.
Proof.
  assert (Hrun : add_files (new_instance WhiteNoiseClass false)
                   "/srv/static" None = (static_site, Ok tt))
    by (vm_compute; reflexivity).
  assert (Hin : "/srv/static/app.js" ∈ walked_paths (walk "/srv/static"))
    by left.
  exact (registered_file_is_served (new_instance WhiteNoiseClass false)
           static_site "/srv/static" None "/srv/static/app.js" "/app.js"
           get_app_js eq_refl Hrun Hin eq_refl eq_refl).
Defined.

Lemma replace_absent (old : ascii) (new s : string) :
  Str.contains old s = false -> Str.replace old new s = s.
Proof.
  induction s as [|a r IH]; simpl; [reflexivity|]. intros Hs.
  apply orb_false_iff in Hs as [Ha Hr]. rewrite Ha, (IH Hr). reflexivity.
Qed.

(** X21.  [add_mime_headers] appends one [Content-Type] header and keeps
    what the list held.  Its value is the media type alone unless the type
    begins with [text/] or is [application/javascript] and a charset is
    configured; then it is the media type followed by
    [; charset="<charset>"], for a charset without backslash and quote. *)
Theorem content_type_header `{Platform} (w : WhiteNoise) (h : Headers)
    (path url : string) :
  let textual := Str.startswith (get_type path) "text/"
                 || Str.eqb (get_type path) "application/javascript" in
  (textual = false \/ Str.truthy (charset w) = false ->
   add_mime_headers w h path url
   = (h ++ [("Content-Type", get_type path)])%list) /\
  (forall c : string,
      textual = true -> charset w = Some c -> c <> "" ->
      Str.contains "\" c = false -> Str.contains DQUOTE c = false ->
      add_mime_headers w h path url
      = (h ++ [("Content-Type",
                get_type path +:+ "; charset=" +:+ quoted c)])%list).
Proof.
  intros textual. unfold add_mime_headers, get_charset. fold textual. split.
  - intros [Ht | Hc].
    + rewrite Ht. reflexivity.
    + destruct textual; [rewrite Hc|]; reflexivity.
  - intros c Ht Hc Hne Hbs Hdq. rewrite Ht, Hc.
    destruct c as [|a c]; [congruence|]. cbn [Str.truthy].
    unfold Hdr.add_header. cbn [map fst snd].
    unfold Hdr.formatparam.
    rewrite (replace_absent "\" _ _ Hbs), (replace_absent DQUOTE _ _ Hdq).
    reflexivity.
Qed.

Lemma content_type_header_witness :
  add_mime_headers (new_instance WhiteNoiseClass false) []
    "/srv/static/app.js" "/app.js"
  = [("Content-Type",
      "application/javascript; charset=" +:+ quoted "utf-8")].
Proof.
  rewrite (proj2 (content_type_header (new_instance WhiteNoiseClass false) []
                    "/srv/static/app.js" "/app.js") "utf-8");
    first [reflexivity | discriminate].
Defined.
